(** * opentrack pose pipeline: a shallow embedding of [logic/pipeline.cpp]

    The development follows the source file top to bottom:

    - a model of the C++ [double] values the pipeline computes with,
    - the small linear-algebra types ([euler_t], [rmat], [Pose]),
    - the command flags ([bits]),
    - the relative-translation compensator ([reltrans]),
    - the pose utilities and the per-cycle function [pipeline::logic].

    Numbers.  A [double] is either finite, an infinity or a NaN.  Finite
    values are exact rationals in canonical form ([Qc]), and [add], [mul]
    and [div] on finite values are the exact operations: they are the C++
    results wherever those are representable, and differ from them by the
    rounding of the last place or by an overflow otherwise (the sign of
    zero is not kept; a division by zero takes the zero as positive).
    [fmod], [fabs], [copysign], the comparisons and [clamp] are exact in
    C++ as well.  Literals that are not binary fractions ([.1f], [.05f],
    [.01]) are kept at the value their type gives them.  The special values
    follow IEEE 754, which is what [nan_check] looks for.

    The theorems below are of two kinds.  Statements about which expression
    the code evaluates (which table entry, which branch, which operands,
    which timer) do not depend on how [add] and [mul] round.  Statements
    about values are statements in this arithmetic: they carry over to the
    machine where the operations involved are exact there (sums with 0,
    products with 0 or 1, [fmod], [clamp], comparisons, small integers and
    binary fractions), and up to the rounding of the last place
    otherwise. *)

From Stdlib Require Import ZArith NArith QArith Qcanon Lia Lqa Bool List.
Import ListNotations.

Set Implicit Arguments.

(* ================================================================== *)
(** ** Doubles *)

Module Dbl.

Inductive double : Type :=
| DFin (q : Qc)
| DInf (negative : bool)
| DNaN.

Local Open Scope Qc_scope.

Definition qz (z : Z) : Qc := Q2Qc (inject_Z z).
Definition qfrac (n : Z) (d : positive) : Qc := Q2Qc (n # d).

Definition Qcltb (a b : Qc) : bool :=
  match a ?= b with Lt => true | _ => false end.

Definition Qcabs (a : Qc) : Qc := if Qcltb a (qz 0) then - a else a.

(** Integer part, rounding toward zero (the quotient [std::fmod] removes). *)
Definition Qtrunc (a : Q) : Z := Z.quot (Qnum a) (Zpos (Qden a)).
Definition Qctrunc (a : Qc) : Z := Qtrunc (this a).

Definition of_Z (z : Z) : double := DFin (qz z).
Definition of_frac (n : Z) (d : positive) : double := DFin (qfrac n d).
(** [bool] converted to [double], as in [x * !disable(i)]. *)
Definition of_bool (b : bool) : double := of_Z (if b then 1 else 0).

Definition is_finite (x : double) : bool :=
  match x with DFin _ => true | _ => false end.

Definition neg (x : double) : double :=
  match x with
  | DFin a => DFin (- a)
  | DInf s => DInf (negb s)
  | DNaN => DNaN
  end.

Definition add (x y : double) : double :=
  match x, y with
  | DNaN, _ | _, DNaN => DNaN
  | DFin a, DFin b => DFin (a + b)
  | DInf s, DInf t => if Bool.eqb s t then DInf s else DNaN
  | DInf s, DFin _ | DFin _, DInf s => DInf s
  end.

Definition sub (x y : double) : double := add x (neg y).

Definition mul (x y : double) : double :=
  match x, y with
  | DNaN, _ | _, DNaN => DNaN
  | DFin a, DFin b => DFin (a * b)
  | DInf s, DInf t => DInf (xorb s t)
  | DInf s, DFin a | DFin a, DInf s =>
      if Qc_eq_bool a (qz 0) then DNaN else DInf (xorb s (Qcltb a (qz 0)))
  end.

Definition div (x y : double) : double :=
  match x, y with
  | DNaN, _ | _, DNaN => DNaN
  | DFin a, DFin b =>
      if Qc_eq_bool b (qz 0)
      then (if Qc_eq_bool a (qz 0) then DNaN else DInf (Qcltb a (qz 0)))
      else DFin (a / b)
  | DFin _, DInf _ => DFin (qz 0)
  | DInf s, DFin b => DInf (xorb s (Qcltb b (qz 0)))
  | DInf _, DInf _ => DNaN
  end.

(** [std::fabs] *)
Definition fabs (x : double) : double :=
  match x with
  | DFin a => DFin (Qcabs a)
  | DInf _ => DInf false
  | DNaN => DNaN
  end.

Definition signbit (x : double) : bool :=
  match x with
  | DFin a => Qcltb a (qz 0)
  | DInf s => s
  | DNaN => false
  end.

(** [std::copysign(mag, sgn)] *)
Definition copysign (mag sgn : double) : double :=
  match fabs mag with
  | DFin m => DFin (if signbit sgn then - m else m)
  | DInf _ => DInf (signbit sgn)
  | DNaN => DNaN
  end.

(** [std::fmod(x, y)]: [x - y * trunc (x / y)], exact in IEEE arithmetic. *)
Definition fmod (x y : double) : double :=
  match x, y with
  | DFin a, DFin b =>
      if Qc_eq_bool b (qz 0) then DNaN
      else DFin (a - b * qz (Qctrunc (a / b)))
  | DFin a, DInf _ => DFin a
  | _, _ => DNaN
  end.

(** IEEE comparisons: anything compared with NaN is false. *)
Definition ltb (x y : double) : bool :=
  match x, y with
  | DNaN, _ | _, DNaN => false
  | DFin a, DFin b => Qcltb a b
  | DInf s, DInf t => s && negb t
  | DInf s, DFin _ => s
  | DFin _, DInf t => negb t
  end.

Definition gtb (x y : double) : bool := ltb y x.

Definition eqb (x y : double) : bool :=
  match x, y with
  | DFin a, DFin b => Qc_eq_bool a b
  | DInf s, DInf t => Bool.eqb s t
  | _, _ => false
  end.

(** [x != y] *)
Definition neb (x y : double) : bool := negb (eqb x y).

(** Structural equality test, NaN included; used to compare whole values. *)
Definition same (x y : double) : bool :=
  match x, y with
  | DNaN, DNaN => true
  | _, _ => eqb x y
  end.

End Dbl.

Export Dbl.

Close Scope Q_scope.
Open Scope nat_scope.

Declare Scope dbl_scope.
Delimit Scope dbl_scope with D.
Bind Scope dbl_scope with double.
Infix "+" := Dbl.add : dbl_scope.
Infix "-" := Dbl.sub : dbl_scope.
Infix "*" := Dbl.mul : dbl_scope.
Infix "/" := Dbl.div : dbl_scope.
Notation "- x" := (Dbl.neg x) : dbl_scope.
Infix "<?" := Dbl.ltb : dbl_scope.
Infix ">?" := Dbl.gtb (at level 70, no associativity) : dbl_scope.

(** Modelled from the spec: [clamp(x, lo, hi)] lives in [compat/math.hpp];
    the spec calls it a hard clamp of the value to the closed interval. *)
Definition clamp (x lo hi : double) : double :=
  if (x >? hi)%D then hi else if (x <? lo)%D then lo else x.

(** *** Literals of the source that are not binary fractions

    [.1f] and [.05f] are [float] literals, [.01] (also written [1e-2]) is a
    [double] literal; each stands for the value of its type nearest to the
    decimal: 13421773 / 2^27, 13421773 / 2^28 and 5764607523034235 / 2^59. *)
Definition float_0_1 : double := of_frac 13421773 134217728.
Definition float_0_05 : double := of_frac 13421773 268435456.
Definition double_0_01 : double := of_frac 5764607523034235 576460752303423488.

(* ================================================================== *)
(** ** Vectors, matrices and poses ([compat/simple-mat.hpp], [compat/euler.hpp]) *)

(** Modelled from the spec: [enum Axis] (declared outside [pipeline.cpp])
    gives the slot order [TX, TY, TZ, Yaw, Pitch, Roll] of a [Pose]. *)
Definition TX : nat := 0.
Definition TY : nat := 1.
Definition TZ : nat := 2.
Definition Yaw : nat := 3.
Definition Pitch : nat := 4.
Definition Roll : nat := 5.

(** Modelled from the spec: [euler_t] is [Mat<double, 3, 1>] of
    [compat/simple-mat.hpp], a 3-tuple of doubles with indexed access and
    componentwise arithmetic. *)
Record euler_t : Type := mk_euler { e0 : double; e1 : double; e2 : double }.

Definition eget (v : euler_t) (i : nat) : double :=
  match i with
  | 0 => e0 v
  | 1 => e1 v
  | 2 => e2 v
  | _ => DNaN
  end.

Definition eset (v : euler_t) (i : nat) (x : double) : euler_t :=
  match i with
  | 0 => mk_euler x (e1 v) (e2 v)
  | 1 => mk_euler (e0 v) x (e2 v)
  | 2 => mk_euler (e0 v) (e1 v) x
  | _ => v
  end.

Definition ezero : euler_t := mk_euler (of_Z 0) (of_Z 0) (of_Z 0).

Definition eadd (u v : euler_t) : euler_t :=
  mk_euler (e0 u + e0 v)%D (e1 u + e1 v)%D (e2 u + e2 v)%D.
Definition esub (u v : euler_t) : euler_t :=
  mk_euler (e0 u - e0 v)%D (e1 u - e1 v)%D (e2 u - e2 v)%D.
Definition escale (v : euler_t) (c : double) : euler_t :=
  mk_euler (e0 v * c)%D (e1 v * c)%D (e2 v * c)%D.
Definition scale_e (c : double) (v : euler_t) : euler_t :=
  mk_euler (c * e0 v)%D (c * e1 v)%D (c * e2 v)%D.

(** Modelled from the spec: [rmat] is [Mat<double, 3, 3>] of
    [compat/simple-mat.hpp], kept here by rows, with the usual products,
    transpose and identity. *)
Record rmat : Type := mk_rmat { row0 : euler_t; row1 : euler_t; row2 : euler_t }.

Definition dot (u v : euler_t) : double :=
  (e0 u * e0 v + e1 u * e1 v + e2 u * e2 v)%D.

Definition rmat_mulv (R : rmat) (v : euler_t) : euler_t :=
  mk_euler (dot (row0 R) v) (dot (row1 R) v) (dot (row2 R) v).

Definition rmat_col (R : rmat) (j : nat) : euler_t :=
  mk_euler (eget (row0 R) j) (eget (row1 R) j) (eget (row2 R) j).

(** [R.t()] *)
Definition rmat_t (R : rmat) : rmat :=
  mk_rmat (rmat_col R 0) (rmat_col R 1) (rmat_col R 2).

Definition rmat_mul (A B : rmat) : rmat :=
  let row r := mk_euler (dot r (rmat_col B 0)) (dot r (rmat_col B 1))
                        (dot r (rmat_col B 2)) in
  mk_rmat (row (row0 A)) (row (row1 A)) (row (row2 A)).

(** [rmat::eye()] *)
Definition rmat_eye : rmat :=
  mk_rmat (mk_euler (of_Z 1) (of_Z 0) (of_Z 0))%D
          (mk_euler (of_Z 0) (of_Z 1) (of_Z 0))%D
          (mk_euler (of_Z 0) (of_Z 0) (of_Z 1))%D.

(** Modelled from the spec: [Pose] is [Mat<double, 6, 1>], the ordered
    6-tuple of doubles of the spec. *)
Record Pose : Type := mk_pose {
  p0 : double; p1 : double; p2 : double;
  p3 : double; p4 : double; p5 : double
}.

Definition pget (p : Pose) (i : nat) : double :=
  match i with
  | 0 => p0 p
  | 1 => p1 p
  | 2 => p2 p
  | 3 => p3 p
  | 4 => p4 p
  | 5 => p5 p
  | _ => DNaN
  end.

Definition pset (p : Pose) (i : nat) (x : double) : Pose :=
  match i with
  | 0 => mk_pose x (p1 p) (p2 p) (p3 p) (p4 p) (p5 p)
  | 1 => mk_pose (p0 p) x (p2 p) (p3 p) (p4 p) (p5 p)
  | 2 => mk_pose (p0 p) (p1 p) x (p3 p) (p4 p) (p5 p)
  | 3 => mk_pose (p0 p) (p1 p) (p2 p) x (p4 p) (p5 p)
  | 4 => mk_pose (p0 p) (p1 p) (p2 p) (p3 p) x (p5 p)
  | 5 => mk_pose (p0 p) (p1 p) (p2 p) (p3 p) (p4 p) x
  | _ => p
  end.

Definition pzero : Pose := mk_pose (of_Z 0) (of_Z 0) (of_Z 0) (of_Z 0) (of_Z 0) (of_Z 0).

(** [euler_t((const double* )value)] and [euler_t(&value[Yaw])]. *)
Definition pose_translation (p : Pose) : euler_t := mk_euler (p0 p) (p1 p) (p2 p).
Definition pose_rotation (p : Pose) : euler_t := mk_euler (p3 p) (p4 p) (p5 p).

(** [vec3_bool], [vec6_bool]: indexed booleans; value-initialised is all false. *)
Definition vec_bool : Type := nat -> bool.
Definition no_axis : vec_bool := fun _ => false.
(** [&disable[k]] *)
Definition vec_from (k : nat) (d : vec_bool) : vec_bool := fun i => d (k + i)%nat.

(** A C-style counted loop [for (i = lo; i < lo + n; i++) body] over a state. *)
Definition for_loop {S : Type} (lo n : nat) (body : S -> nat -> S) (s : S) : S :=
  fold_left body (seq lo n) s.

(* ================================================================== *)
(** ** Command flags ([bits]) *)

(** Modelled from the spec: the [bit_flags] enumeration is declared in
    [pipeline.hpp]; the five flags are distinct single bits. *)
Definition f_center : N := 1.
Definition f_held_center : N := 2.
Definition f_enabled_h : N := 4.
Definition f_enabled_p : N := 8.
Definition f_zero : N := 16.

Module bits.

(** The atomic word; each operation below is one successful
    compare-exchange, so the sequential reading is the word update. *)
Definition t : Type := N.

Definition set (b : t) (flag : N) (val : bool) : t :=
  N.lor (N.ldiff b flag) (flag * (if val then 1 else 0)).

Definition negate (b : t) (flag : N) : t := N.lxor b flag.

Definition get (b : t) (flag : N) : bool := negb (N.land b flag =? 0)%N.

(** [bits::bits()] *)
Definition init : t :=
  let b := 0%N in
  let b := set b f_center false in
  let b := set b f_held_center false in
  let b := set b f_enabled_p true in
  let b := set b f_enabled_h true in
  set b f_zero false.

End bits.

(* ================================================================== *)
(** ** Timers ([compat/timer.hpp]) *)

(** Modelled from the spec: a [Timer] is a monotonic stopwatch; [start]
    remembers the clock, [elapsed_seconds] is the clock minus the remembered
    instant.  The clock itself is an input: every timer call of a cycle gets
    the instant at which it happens (see [clock_reads]). *)
Record Timer : Type := mk_timer { started : double }.

Definition Timer_start (now : double) : Timer := mk_timer now.
Definition elapsed_seconds (t : Timer) (now : double) : double := (now - started t)%D.

(** The clock readings of one call of [reltrans::apply_pipeline], one per
    timer call in the order of the source text. *)
Record clock_reads : Type := mk_clock {
  at_arm_interp : double;    (* interp_timer.start(), line 94 *)
  at_arm_phase : double;     (* interp_phase_timer.start(), line 95 *)
  at_dt : double;            (* interp_timer.elapsed_seconds(), line 123 *)
  at_restart : double;       (* interp_timer.start(), line 128 *)
  at_phase : double;         (* interp_phase_timer.elapsed_seconds(), line 131 *)
  at_phase_restart : double  (* interp_phase_timer.start(), line 134 *)
}.

(* ================================================================== *)
(** ** Settings and mappings ([main-settings.hpp], [mappings.hpp]) *)

(** Modelled from the spec: [reltrans_state] is declared in
    [main-settings.hpp]; the spec names the modes Disabled, AlwaysOn and
    ZoneTriggered. *)
Inductive reltrans_state : Type :=
| reltrans_disabled
| reltrans_enabled
| reltrans_non_center.

Definition reltrans_state_eqb (a b : reltrans_state) : bool :=
  match a, b with
  | reltrans_disabled, reltrans_disabled
  | reltrans_enabled, reltrans_enabled
  | reltrans_non_center, reltrans_non_center => true
  | _, _ => false
  end.

(** The fields of [main_settings] that [pipeline.cpp] reads. *)
Record main_settings : Type := mk_settings {
  center_at_startup : bool;
  reltrans_mode : reltrans_state;
  reltrans_disable_tx : bool;
  reltrans_disable_ty : bool;
  reltrans_disable_tz : bool;
  reltrans_disable_src_yaw : bool;
  reltrans_disable_src_pitch : bool;
  reltrans_disable_src_roll : bool;
  neck_enable : bool;
  neck_z : Z
}.

(** [axis_opts]: per-axis configuration. *)
Record axis_opts : Type := mk_opts {
  src : Z;
  invert : bool;
  zero : double;
  altp : bool
}.

(** A [Map] is the options of an axis and its two curves; a curve is known
    to the pipeline only through [get_value]. *)
Record Map : Type := mk_map {
  opts : axis_opts;
  spline_main : double -> double;
  spline_alt : double -> double
}.

(** [Mappings]: [m(i)] for the six axes. *)
Definition Mappings : Type := nat -> Map.

(* ================================================================== *)
(** ** The relative-translation compensator ([reltrans]) *)

Record reltrans : Type := mk_reltrans {
  interp_pos : euler_t;
  in_zone : bool;
  cur : bool;
  interp_timer : Timer;
  interp_phase_timer : Timer;
  RC_stage : nat
}.

Definition set_interp_pos (r : reltrans) (v : euler_t) : reltrans :=
  mk_reltrans v (in_zone r) (cur r) (interp_timer r) (interp_phase_timer r) (RC_stage r).
Definition set_in_zone (r : reltrans) (v : bool) : reltrans :=
  mk_reltrans (interp_pos r) v (cur r) (interp_timer r) (interp_phase_timer r) (RC_stage r).
Definition set_cur (r : reltrans) (v : bool) : reltrans :=
  mk_reltrans (interp_pos r) (in_zone r) v (interp_timer r) (interp_phase_timer r) (RC_stage r).
Definition set_interp_timer (r : reltrans) (v : Timer) : reltrans :=
  mk_reltrans (interp_pos r) (in_zone r) (cur r) v (interp_phase_timer r) (RC_stage r).
Definition set_interp_phase_timer (r : reltrans) (v : Timer) : reltrans :=
  mk_reltrans (interp_pos r) (in_zone r) (cur r) (interp_timer r) v (RC_stage r).
Definition set_RC_stage (r : reltrans) (v : nat) : reltrans :=
  mk_reltrans (interp_pos r) (in_zone r) (cur r) (interp_timer r) (interp_phase_timer r) v.

(** [reltrans::on_center], lines 38-43. *)
Definition on_center (r : reltrans) : reltrans :=
  let r := set_interp_pos r (mk_euler (of_Z 0) (of_Z 0) (of_Z 0))%D in
  let r := set_in_zone r false in
  set_cur r false.

(** [reltrans::rotate], lines 45-71.  [tb_Z, tb_X, tb_Y] are 0, 1, 2. *)
Definition rotate (R : rmat) (inp : euler_t) (disable : vec_bool) : euler_t :=
  let tb_Z := 0 in
  let tb_X := 1 in
  let tb_Y := 2 in
  let ret := rmat_mulv R (mk_euler (eget inp TZ) (- eget inp TX) (- eget inp TY))%D in
  let output := ezero in
  let output :=
    if disable TZ then eset output TZ (eget inp TZ)
    else eset output TZ (eget ret tb_Z) in
  let output :=
    if disable TY then eset output TY (eget inp TY)
    else eset output TY (- eget ret tb_Y)%D in
  let output :=
    if disable TX then eset output TX (eget inp TX)
    else eset output TX (- eget ret tb_X)%D in
  output.

(** [reltrans::apply_neck], lines 171-182. *)
Definition apply_neck (R : rmat) (nz : Z) (disable_tz : bool) : euler_t :=
  let neck := rotate R (mk_euler (of_Z 0) (of_Z 0) (of_Z nz))%D no_axis in
  let neck := eset neck TZ (eget neck TZ - of_Z nz)%D in
  if disable_tz then eset neck TZ (of_Z 0) else neck.

(** [RC_stages] and [RC_time_deltas], lines 125-126: tables of [float],
    read as [double].  2, 1, .5 and .25 are binary fractions; .1 and .05
    are the [float] values [float_0_1] and [float_0_05]. *)
Definition RC_stages : list double :=
  [ (of_Z 2); (of_Z 1); of_frac 1 2; float_0_1; float_0_05 ].
Definition RC_time_deltas : list double :=
  [ (of_Z 1); of_frac 1 4; of_frac 1 4; (of_Z 2) ].

(** The zone test, lines 80-88. *)
Definition zone_test (state : reltrans_state) (value : Pose) : bool :=
  if reltrans_state_eqb state reltrans_non_center then
    let looking_down := (pget value Pitch <? of_Z 20)%D in
    if looking_down then (fabs (pget value Yaw) >? of_Z 35)%D
    else (fabs (pget value Yaw) >? of_Z 65)%D
  else true.

(** Arming a transition, lines 90-97. *)
Definition arm (r : reltrans) (clk : clock_reads) (in_zone_ : bool) : reltrans :=
  if negb (cur r) && negb (Bool.eqb (in_zone r) in_zone_) then
    let r := set_cur r true in
    let r := set_interp_timer r (Timer_start (at_arm_interp clk)) in
    let r := set_interp_phase_timer r (Timer_start (at_arm_phase clk)) in
    set_RC_stage r 0
  else r.

(** The staged low-pass filter, lines 121-157. *)
Definition interpolate (r : reltrans) (clk : clock_reads) (rel : euler_t)
  : reltrans * euler_t :=
  if cur r then
    let dt := elapsed_seconds (interp_timer r) (at_dt clk) in
    let r := set_interp_timer r (Timer_start (at_restart clk)) in
    let r :=
      if (RC_stage r + 1 <? length RC_stages)
         && (elapsed_seconds (interp_phase_timer r) (at_phase clk)
             >? nth (RC_stage r) RC_time_deltas DNaN)%D
      then
        let r := set_RC_stage r (RC_stage r + 1) in
        set_interp_phase_timer r (Timer_start (at_phase_restart clk))
      else r in
    let RC := nth (RC_stage r) RC_stages DNaN in
    let alpha := (dt / (dt + RC))%D in
    let eps := double_0_01 in
    let r := set_interp_pos r
               (eadd (escale (interp_pos r) (of_Z 1 - alpha)%D) (escale rel alpha)) in
    let tmp := esub rel (interp_pos r) in
    let rel := interp_pos r in
    let delta := (fabs (eget tmp 0) + fabs (eget tmp 1) + fabs (eget tmp 2))%D in
    let r := if (delta <? eps)%D then set_cur r false else r in
    (r, rel)
  else
    (set_interp_pos r rel, rel).

Section Collaborators.

(** Functions and constants that [pipeline.cpp] uses and does not define:
    the Euler-angle conversions of [compat/euler.cpp], the scale constants
    of [pipeline.hpp], the filter plugin.  [d2r] and [r2d] are the doubles
    [M_PI / 180.] and [180. / M_PI]. *)
Variable euler_to_rmat : euler_t -> rmat.
Variable rmat_to_euler : rmat -> euler_t.
Variables d2r r2d : double.
Variables scale_c scale_inv_c : double.
Variable FilterState : Type.
Variable filter_center : FilterState -> FilterState.
Variable filter_filter : FilterState -> Pose -> Pose -> FilterState * Pose.

(** Rotation and neck offset inside the zone, lines 101-119. *)
Definition compensate (r : reltrans) (state : reltrans_state) (value : Pose)
    (disable : vec_bool) (neck_enable : bool) (neck_z : Z) (rel : euler_t)
  : euler_t :=
  if in_zone r then
    let R := euler_to_rmat
               (mk_euler (pget value Yaw * d2r * of_bool (negb (disable Yaw)))
                         (pget value Pitch * d2r * of_bool (negb (disable Pitch)))
                         (pget value Roll * d2r * of_bool (negb (disable Roll))))%D in
    let rel := rotate R rel (vec_from TX disable) in
    if neck_enable
       && (negb (reltrans_state_eqb state reltrans_non_center) || negb (in_zone r))
    then
      let neck := apply_neck R (- neck_z)%Z (disable TZ) in
      for_loop 0 3 (fun rel k => eset rel k (eget rel k + eget neck k)%D) rel
    else rel
  else rel.

(** [reltrans::apply_pipeline], lines 73-169. *)
Definition apply_pipeline (r : reltrans) (clk : clock_reads) (state : reltrans_state)
    (value : Pose) (disable : vec_bool) (neck_enable : bool) (neck_z : Z)
  : reltrans * Pose :=
  let rel := pose_translation value in
  let '(r, rel) :=
    if negb (reltrans_state_eqb state reltrans_disabled) then
      let in_zone_ := zone_test state value in
      let r := arm r clk in_zone_ in
      let r := set_in_zone r in_zone_ in
      let rel := compensate r state value disable neck_enable neck_z rel in
      interpolate r clk rel
    else
      let r := set_cur r false in
      let r := set_in_zone r false in
      (r, rel) in
  (r, mk_pose (eget rel TX) (eget rel TY) (eget rel TZ)
              (pget value Yaw) (pget value Pitch) (pget value Roll)).

(* ================================================================== *)
(** ** The pipeline *)

(** [scaled_state]: the orientation kept for centering. *)
Record scaled_state_t : Type := mk_scaled {
  rotation : rmat;
  inv_rot_center : rmat;
  t_center : euler_t
}.

(** The members of [pipeline] that [logic] reads and writes.  [pFilter] is
    the optional filter plugin of [libs], held with its internal state. *)
Record pipeline : Type := mk_pipeline {
  b : bits.t;
  tracking_started : bool;
  newpose : Pose;
  scaled_state : scaled_state_t;
  rel : reltrans;
  pFilter : option FilterState;
  output_pose : Pose;
  raw_6dof : Pose
}.

Definition set_b (p : pipeline) (v : bits.t) : pipeline :=
  mk_pipeline v (tracking_started p) (newpose p) (scaled_state p) (rel p)
              (pFilter p) (output_pose p) (raw_6dof p).
Definition set_tracking_started (p : pipeline) (v : bool) : pipeline :=
  mk_pipeline (b p) v (newpose p) (scaled_state p) (rel p)
              (pFilter p) (output_pose p) (raw_6dof p).
Definition set_newpose (p : pipeline) (v : Pose) : pipeline :=
  mk_pipeline (b p) (tracking_started p) v (scaled_state p) (rel p)
              (pFilter p) (output_pose p) (raw_6dof p).
Definition set_scaled_state (p : pipeline) (v : scaled_state_t) : pipeline :=
  mk_pipeline (b p) (tracking_started p) (newpose p) v (rel p)
              (pFilter p) (output_pose p) (raw_6dof p).
Definition set_rel (p : pipeline) (v : reltrans) : pipeline :=
  mk_pipeline (b p) (tracking_started p) (newpose p) (scaled_state p) v
              (pFilter p) (output_pose p) (raw_6dof p).
Definition set_pFilter (p : pipeline) (v : option FilterState) : pipeline :=
  mk_pipeline (b p) (tracking_started p) (newpose p) (scaled_state p) (rel p)
              v (output_pose p) (raw_6dof p).
Definition set_output (p : pipeline) (value raw : Pose) : pipeline :=
  mk_pipeline (b p) (tracking_started p) (newpose p) (scaled_state p) (rel p)
              (pFilter p) value raw.

(** [pipeline::map], lines 194-201.  The tracking-active marks it leaves on
    the two curves belong to the curve widgets and are not kept here. *)
Definition map (pos : double) (axis : Map) : double :=
  let altp_ := (pos <? of_Z 0)%D && altp (opts axis) in
  let fc := if altp_ then spline_alt axis else spline_main axis in
  fc pos.

(** [is_nan], lines 203-215, at the [Pose] instance: NaN or infinite. *)
Definition is_nan (r : Pose) : bool :=
  existsb (fun i => negb (is_finite (pget r i))) (seq 0 6).

(** [maybe_enable_center_on_tracking_started], lines 265-284. *)
Definition maybe_enable_center_on_tracking_started (s : main_settings) (p : pipeline)
  : pipeline :=
  if negb (tracking_started p) then
    let p :=
      if existsb (fun i => neb (fabs (pget (newpose p) i)) (of_Z 0)) (seq 0 6)
      then set_tracking_started p true else p in
    if tracking_started p && center_at_startup s
    then set_b p (bits.set (b p) f_center true)
    else p
  else p.

(** [maybe_set_center_pose], lines 286-304. *)
Definition maybe_set_center_pose (p : pipeline) (value : Pose) (own_center_logic : bool)
  : pipeline :=
  if bits.get (b p) (N.lor f_center f_held_center) then
    let p := set_pFilter p (option_map filter_center (pFilter p)) in
    let ss := scaled_state p in
    if own_center_logic then
      set_scaled_state p (mk_scaled (rotation ss) rmat_eye (mk_euler (of_Z 0) (of_Z 0) (of_Z 0))%D)
    else
      set_scaled_state p (mk_scaled (rotation ss) (rmat_t (rotation ss))
                                    (pose_translation value))
  else p.

(** [store_tracker_pose], lines 306-312. *)
Definition store_tracker_pose (p : pipeline) (value : Pose) : pipeline :=
  let ss := scaled_state p in
  set_scaled_state p
    (mk_scaled (euler_to_rmat (scale_e (scale_inv_c * d2r)%D (pose_rotation value)))
               (inv_rot_center ss) (t_center ss)).

(** One turn of the loop of [clamp_value], lines 319-324. *)
Definition clamp_value_step (value : Pose) (i : nat) : Pose :=
  let value := pset value i (fmod (pget value i) (of_Z 360)) in
  let x := pget value i in
  let value :=
    if (fabs x - double_0_01 >? of_Z 180)%D
    then pset value i (fmod (x + copysign (of_Z 180) x) (of_Z 360) - copysign (of_Z 180) x)%D
    else value in
  pset value i (clamp x (of_Z (-180)) (of_Z 180))%D.

(** [pipeline::clamp_value], lines 314-328. *)
Definition clamp_value (value : Pose) : Pose :=
  for_loop 3 3 clamp_value_step value.

(** [pipeline::apply_center], lines 330-356. *)
Definition apply_center (m : Mappings) (p : pipeline) (value : Pose) : Pose :=
  let ss := scaled_state p in
  let T := esub (pose_translation value) (t_center ss) in
  let R := scale_e (d2r * scale_c)%D
                   (rmat_to_euler (rmat_mul (rotation ss) (inv_rot_center ss))) in
  let T := rotate (euler_to_rmat R) T no_axis in
  let '(R, T) :=
    for_loop 0 3
      (fun '(R, T) i =>
         let R := if invert (opts (m (i + 3))) then eset R i (- eget R i)%D else R in
         let T := if invert (opts (m i)) then eset T i (- eget T i)%D else T in
         (R, T))
      (R, T) in
  for_loop 0 3
    (fun value i =>
       let value := pset value i (eget T i) in
       pset value (i + 3) (eget R i * r2d)%D)
    value.

(** [pipeline::get_selected_axis_values], lines 358-378. *)
Definition get_selected_axis_values (m : Mappings) (newpose : Pose)
  : Pose * Pose * vec_bool :=
  let value :=
    for_loop 0 6
      (fun value i =>
         let k := src (opts (m i)) in
         if (k <? 0)%Z || (k >=? 6)%Z then pset value i (of_Z 0)
         else pset value i (pget newpose (Z.to_nat k)))
      pzero in
  let disabled : vec_bool := fun i => (src (opts (m i)) =? 6)%Z in
  (newpose, value, disabled).

(** [pipeline::maybe_apply_filter], lines 380-389: the filter, when there is
    one, fills [tmp], which starts as a copy of [value]. *)
Definition maybe_apply_filter (p : pipeline) (value : Pose) : pipeline * Pose :=
  let tmp := value in
  match pFilter p with
  | Some fs =>
      let '(fs, tmp) := filter_filter fs value tmp in
      (set_pFilter p (Some fs), tmp)
  | None => (p, tmp)
  end.

(** [pipeline::apply_zero_pos], lines 391-398. *)
Definition apply_zero_pos (m : Mappings) (value : Pose) : Pose :=
  for_loop 0 6
    (fun value i =>
       pset value i
         (pget value i
          + zero (opts (m i)) * (if invert (opts (m i)) then of_Z (-1) else of_Z 1))%D)
    value.

(** [pipeline::apply_reltrans], lines 400-421. *)
Definition apply_reltrans (s : main_settings) (p : pipeline) (clk : clock_reads)
    (value : Pose) (disabled : vec_bool) (centerp : bool) : pipeline * Pose :=
  let p := if centerp then set_rel p (on_center (rel p)) else p in
  let disable : vec_bool := fun i =>
    nth i [ reltrans_disable_tx s; reltrans_disable_ty s; reltrans_disable_tz s;
            reltrans_disable_src_yaw s; reltrans_disable_src_pitch s;
            reltrans_disable_src_roll s ] false in
  let '(r, value) :=
    apply_pipeline (rel p) clk (reltrans_mode s) value disable
                   (neck_enable s) (neck_z s) in
  let p := set_rel p r in
  let value :=
    for_loop 0 6 (fun value k => if disabled k then pset value k (of_Z 0) else value)
             value in
  (p, value).

(** [hold_ordered], line 434. *)
Definition hold_ordered (p : pipeline) : bool :=
  xorb (bits.get (b p) f_enabled_p) (bits.get (b p) f_enabled_h).

(** What one cycle receives from outside: the tracker's answer to
    [center()], the pose it delivers, and the clock. *)
Record cycle_input : Type := mk_input {
  tracker_center : bool;
  tracker_data : Pose;
  clk : clock_reads
}.

(** The part of [logic] between the tracker read and the labels, lines
    436-487: [Some (value, raw)] when control reaches [goto ok], [None]
    when it reaches [error:] (through a failed [nan_check] or because
    [hold_ordered] is set).  The event hooks and the logger only look at
    the pose and are left out. *)
Definition logic_body (m : Mappings) (s : main_settings) (p : pipeline)
    (inp : cycle_input) (center_ordered own_center_logic hold_ordered : bool)
  : pipeline * option (Pose * Pose) :=
  let p := set_newpose p (tracker_data inp) in
  let '(raw, value, disabled) := get_selected_axis_values m (newpose p) in
  if is_nan (newpose p) || is_nan raw || is_nan value then (p, None) else
  let value := clamp_value value in
  let p := maybe_enable_center_on_tracking_started s p in
  let p := store_tracker_pose p value in
  let p := maybe_set_center_pose p value own_center_logic in
  let value := apply_center m p value in
  let '(p, tmp) := maybe_apply_filter p value in
  if is_nan tmp then (p, None) else
  let value := if negb center_ordered then tmp else value in
  let value := for_loop 3 3 (fun value i => pset value i (map (pget value i) (m i))) value in
  let '(p, value) := apply_reltrans s p (clk inp) value disabled center_ordered in
  let value := for_loop 0 3 (fun value i => pset value i (map (pget value i) (m i))) value in
  if is_nan value then (p, None) else
  if negb hold_ordered then (p, Some (value, raw)) else (p, None).

(** The common tail of [logic] from the label [ok:], lines 501-516. *)
Definition logic_finish (m : Mappings) (p : pipeline) (value raw : Pose) : pipeline * Pose :=
  let p := set_b p (bits.set (b p) f_center false) in
  let value :=
    if bits.get (b p) f_zero
    then for_loop 0 6 (fun value i => pset value i (of_Z 0)) value
    else value in
  let value := apply_zero_pos m value in
  (set_output p value raw, value).

(** [pipeline::logic], lines 423-522.  The result is the new state and the
    pose handed to the protocol.  At [error:] the curves are evaluated once
    more on the stale raw pose for the widgets; nothing of that is kept. *)
Definition logic (m : Mappings) (s : main_settings) (p : pipeline) (inp : cycle_input)
  : pipeline * Pose :=
  let center_ordered :=
    bits.get (b p) (N.lor f_center f_held_center) && tracking_started p in
  let own_center_logic := center_ordered && tracker_center inp in
  let hold_ordered := hold_ordered p in
  let '(p, r) := logic_body m s p inp center_ordered own_center_logic hold_ordered in
  match r with
  | Some (value, raw) => logic_finish m p value raw
  | None =>
      (* error: *)
      let value := output_pose p in
      let raw := raw_6dof p in
      logic_finish m p value raw
  end.

(* ================================================================== *)
(** ** Vocabulary of the statements *)

(** Whole-value comparison of poses and vectors, for evaluated examples. *)
Definition pose_same (u v : Pose) : bool :=
  forallb (fun i => Dbl.same (pget u i) (pget v i)) (seq 0 6).
Definition euler_same (u v : euler_t) : bool :=
  forallb (fun i => Dbl.same (eget u i) (eget v i)) (seq 0 3).

(** A rotation value that is a number of degrees in [-180, 180]. *)
Definition in_rotation_range (x : double) : Prop :=
  exists q : Qc, x = DFin q /\ (qz (-180) <= q)%Qc /\ (q <= qz 180)%Qc.

(** Two angles on the same side of zero (zero counts for both sides). *)
Definition same_sign (x y : Qc) : Prop :=
  ((qz 0 <= x)%Qc /\ (qz 0 <= y)%Qc) \/ ((x <= qz 0)%Qc /\ (y <= qz 0)%Qc).

(** What one turn of the loop of [clamp_value] leaves in its slot. *)
Definition clamp_angle (x0 : double) : double :=
  clamp (fmod x0 (of_Z 360)) (of_Z (-180)) (of_Z 180).

(** A pose with only its rotation slots set. *)
Definition rotation_pose (yaw pitch roll : Z) : Pose :=
  mk_pose (of_Z 0) (of_Z 0) (of_Z 0) (of_Z yaw) (of_Z pitch) (of_Z roll).

(** The compensator as it stands at line 121, after the zone test and the
    arming step (lines 80-99). *)
Definition at_line_121 (r : reltrans) (clk : clock_reads) (state : reltrans_state)
    (value : Pose) : reltrans :=
  let in_zone_ := zone_test state value in
  set_in_zone (arm r clk in_zone_) in_zone_.

(** A transition is armed in this call (the test of line 90). *)
Definition arms (r : reltrans) (state : reltrans_state) (value : Pose) : bool :=
  negb (reltrans_state_eqb state reltrans_disabled)
  && negb (cur r) && negb (Bool.eqb (in_zone r) (zone_test state value)).

(** *** The staged low-pass filter in the words of the spec *)

Definition spec_RC (stage : nat) : double :=
  match stage with
  | 0 => of_Z 2
  | 1 => of_Z 1
  | 2 => of_frac 1 2
  | 3 => float_0_1
  | _ => float_0_05
  end.

Definition spec_threshold (stage : nat) : double :=
  match stage with
  | 0 => of_Z 1
  | 1 => of_frac 1 4
  | 2 => of_frac 1 4
  | _ => of_Z 2
  end.

(** One stage further when the phase timer is past the threshold of the
    current stage; the last stage (index 4) is kept. *)
Definition spec_next_stage (stage : nat) (phase_elapsed : double) : nat :=
  if (stage <? 4) && (phase_elapsed >? spec_threshold stage)%D then S stage else stage.

Definition spec_alpha (dt RC : double) : double := (dt / (dt + RC))%D.

Definition spec_low_pass (interp target : euler_t) (alpha : double) : euler_t :=
  mk_euler (e0 interp * (of_Z 1 - alpha) + e0 target * alpha)%D
           (e1 interp * (of_Z 1 - alpha) + e1 target * alpha)%D
           (e2 interp * (of_Z 1 - alpha) + e2 target * alpha)%D.

Definition L1_distance (u v : euler_t) : double :=
  (fabs (e0 u - e0 v) + fabs (e1 u - e1 v) + fabs (e2 u - e2 v))%D.

(** *** The neck model in the words of the (amended) spec *)

(** The rigid offset: the pure-Z vector of magnitude [neck_z] taken through
    the rotation primitive, minus its original Z, with Z zeroed when the TZ
    axis is disabled. *)
Definition spec_neck_offset (R : rmat) (neck_z : Z) (tz_disabled : bool) : euler_t :=
  let z := of_Z (- neck_z) in
  let turned := rotate R (mk_euler (of_Z 0) (of_Z 0) z) no_axis in
  mk_euler (e0 turned) (e1 turned)
           (if tz_disabled then of_Z 0 else (e2 turned - z)%D).

(** When the neck model runs: neck enabled and the mode is AlwaysOn. *)
Definition neck_runs (state : reltrans_state) (neck_enable : bool) : bool :=
  neck_enable && reltrans_state_eqb state reltrans_enabled.

(** The rotation matrix built from the source angles, lines 104-107. *)
Definition zone_rmat (value : Pose) (disable : vec_bool) : rmat :=
  euler_to_rmat
    (mk_euler (pget value Yaw * d2r * of_bool (negb (disable Yaw)))
              (pget value Pitch * d2r * of_bool (negb (disable Pitch)))
              (pget value Roll * d2r * of_bool (negb (disable Roll))))%D.

(** The translation the filter is aimed at, for a mode other than Disabled. *)
Definition spec_target (state : reltrans_state) (value : Pose) (disable : vec_bool)
    (neck_enable : bool) (neck_z : Z) : euler_t :=
  if zone_test state value then
    let R := zone_rmat value disable in
    let rotated := rotate R (pose_translation value) (vec_from TX disable) in
    if neck_runs state neck_enable
    then eadd rotated (spec_neck_offset R neck_z (disable TZ))
    else rotated
  else pose_translation value.

(** [apply_pipeline] with the aim of the filter given by [spec_target]. *)
Definition spec_apply_pipeline (r : reltrans) (clk : clock_reads)
    (state : reltrans_state) (value : Pose) (disable : vec_bool)
    (neck_enable : bool) (neck_z : Z) : reltrans * Pose :=
  let with_translation (t : euler_t) :=
    mk_pose (e0 t) (e1 t) (e2 t) (p3 value) (p4 value) (p5 value) in
  match state with
  | reltrans_disabled =>
      (set_in_zone (set_cur r false) false, with_translation (pose_translation value))
  | _ =>
      let '(r, t) := interpolate (at_line_121 r clk state value) clk
                       (spec_target state value disable neck_enable neck_z) in
      (r, with_translation t)
  end.

(** *** The frozen cycle *)

(** What a cycle that reaches [error:] publishes, read off the state it
    started from: the previous output, zeroed if the zero command is on,
    with the zero offsets added. *)
Definition frozen_pose (m : Mappings) (p : pipeline) : Pose :=
  apply_zero_pos m
    (if bits.get (b p) f_zero then pzero else output_pose p).

(** The part of the state a frozen cycle reads. *)
Definition frozen_view (p : pipeline) : Pose * Pose * bool :=
  (output_pose p, raw_6dof p, bits.get (b p) f_zero).

(** *** Sample data for the evaluated statements *)

Definition idle_reltrans : reltrans :=
  mk_reltrans ezero false false (mk_timer (of_Z 0)) (mk_timer (of_Z 0)) 0.

Definition moving_reltrans : reltrans :=
  mk_reltrans (mk_euler (of_Z 4) (of_Z 2) (of_Z 3)) true true
              (mk_timer (of_Z 0)) (mk_timer (of_Z 0)) 0.

(** The clock one second after [moving_reltrans] was armed at 0: one
    second since the last cycle, two on the phase timer. *)
Definition moving_clock : clock_reads :=
  mk_clock (of_Z 0) (of_Z 0) (of_Z 1) (of_Z 1) (of_Z 2) (of_Z 2).

Definition clock_at (t : double) : clock_reads := mk_clock t t t t t t.

Definition sample_pose : Pose :=
  mk_pose (of_Z 1) (of_Z 2) (of_Z 3) (of_Z 10) (of_Z 25) (of_Z 0).

(** Axis [i] reads source [i] through identity curves; [tx_zero] is the
    zero offset of the TX axis, the other offsets are 0. *)
Definition sample_mappings (tx_zero : Z) : Mappings := fun i =>
  mk_map (mk_opts (Z.of_nat i) false (of_Z (if i =? 0 then tx_zero else 0)) false)
         (fun x => x) (fun x => x).

Definition sample_settings : main_settings :=
  mk_settings false reltrans_disabled false false false false false false false 0.

Definition nan_pose : Pose :=
  mk_pose DNaN (of_Z 0) (of_Z 0) (of_Z 0) (of_Z 0) (of_Z 0).

Definition last_good : Pose :=
  mk_pose (of_Z 5) (of_Z 0) (of_Z 0) (of_Z 10) (of_Z 0) (of_Z 0).

(** A running pipeline whose last published pose is [last_good]. *)
Definition sample_pipeline (flags : bits.t) : pipeline :=
  mk_pipeline flags true pzero (mk_scaled rmat_eye rmat_eye ezero)
              idle_reltrans None last_good pzero.

Definition nan_input : cycle_input := mk_input false nan_pose (clock_at (of_Z 0)).
Definition sample_input : cycle_input := mk_input false sample_pose (clock_at (of_Z 0)).

(** A rotation by a quarter turn, used as a sample answer of [euler_to_rmat]. *)
Definition quarter_turn : rmat :=
  mk_rmat (mk_euler (of_Z 0) (of_Z (-1)) (of_Z 0))
          (mk_euler (of_Z 1) (of_Z 0) (of_Z 0))
          (mk_euler (of_Z 0) (of_Z 0) (of_Z 1)).

(* ================================================================== *)
(** ** The rest of the file: readers, commands, the loop of [run] *)

(** [pipeline::raw_and_mapped_pose], lines 607-616: fills the two arrays of
    the caller, slot by slot. *)
Definition raw_and_mapped_pose (p : pipeline) (mapped raw : Pose) : Pose * Pose :=
  for_loop 0 6
    (fun '(mapped, raw) i =>
       let raw := pset raw i (pget (raw_6dof p) i) in
       let mapped := pset mapped i (pget (output_pose p) i) in
       (mapped, raw))
    (mapped, raw).

(** The command interface, lines 618-629. *)
Definition set_center (p : pipeline) : pipeline :=
  set_b p (bits.set (b p) f_center true).
Definition set_held_center (p : pipeline) (value : bool) : pipeline :=
  set_b p (bits.set (b p) f_held_center value).
Definition set_enabled (p : pipeline) (value : bool) : pipeline :=
  set_b p (bits.set (b p) f_enabled_h value).
Definition set_zero (p : pipeline) (value : bool) : pipeline :=
  set_b p (bits.set (b p) f_zero value).
Definition toggle_zero (p : pipeline) : pipeline :=
  set_b p (bits.negate (b p) f_zero).
Definition toggle_enabled (p : pipeline) : pipeline :=
  set_b p (bits.negate (b p) f_enabled_p).

(** The state after the cycles of the loop of [run], lines 551-553, one
    [logic] per input. *)
Definition cycles (m : Mappings) (s : main_settings) (p : pipeline)
    (inputs : list cycle_input) : pipeline :=
  fold_left (fun p inp => fst (logic m s p inp)) inputs p.

(** Conversion of a [double] to [int]: the integer part, toward zero.  For a
    NaN or an infinity the conversion is undefined; 0 stands for it here. *)
Definition to_int (x : double) : Z :=
  match x with
  | DFin q => Qctrunc q
  | _ => 0%Z
  end.

(** Modelled from the spec: the duration types [ns], [ms] and [secs] are
    declared outside [pipeline.cpp]; they hold floating-point counts, kept
    here in milliseconds throughout.  This is the timing of one turn of the
    loop of [pipeline::run], lines 555-569: the backlog after the turn and
    [sleep_time_ms]. *)
Definition run_timing (backlog_time elapsed_nsecs : double) : double * Z :=
  let const_sleep_ms := of_Z 4 in
  let backlog_time :=
    if (fabs backlog_time >? of_Z 3000)%D then of_Z 0 else backlog_time in
  let backlog_time := (backlog_time + (elapsed_nsecs - const_sleep_ms))%D in
  let sleep_time_ms :=
    to_int (clamp (const_sleep_ms - backlog_time)%D (of_Z 0) (of_Z 10)
            + float_0_1)%D in
  (backlog_time, sleep_time_ms).

(** *** More vocabulary *)

Definition euler_finite (v : euler_t) : bool :=
  is_finite (e0 v) && is_finite (e1 v) && is_finite (e2 v).

Definition rmat_finite (R : rmat) : bool :=
  euler_finite (row0 R) && euler_finite (row1 R) && euler_finite (row2 R).

(** A single flag bit. *)
Definition flag_bit (k : N) : N := (2 ^ k)%N.

(** What [get_selected_axis_values] puts on axis [i], lines 366-374. *)
Definition selected_slot (m : Mappings) (newpose : Pose) (i : nat) : double :=
  let k := src (opts (m i)) in
  if (k <? 0)%Z || (k >=? 6)%Z then of_Z 0 else pget newpose (Z.to_nat k).

(** The members of the pipeline that only [logic] itself and
    [maybe_enable_center_on_tracking_started] write. *)
Definition ctl_view (p : pipeline) : bits.t * bool * Pose * Pose * Pose :=
  (b p, tracking_started p, newpose p, output_pose p, raw_6dof p).

(** [center_ordered], line 432. *)
Definition center_ordered (p : pipeline) : bool :=
  bits.get (b p) (N.lor f_center f_held_center) && tracking_started p.

(** Some slot of the pose is not zero (the test of lines 269-274). *)
Definition some_slot_nonzero (r : Pose) : bool :=
  existsb (fun i => neb (fabs (pget r i)) (of_Z 0)) (seq 0 6).

(** *** More sample data *)

(** Sample answers of the collaborators: no rotation, and a filter that
    hands its input through. *)
Definition sample_euler_to_rmat : euler_t -> rmat := fun _ => rmat_eye.
Definition sample_rmat_to_euler : rmat -> euler_t := fun _ => ezero.
Definition sample_filter_center : unit -> unit := fun fs => fs.
Definition sample_filter : unit -> Pose -> Pose -> unit * Pose :=
  fun fs _ tmp => (fs, tmp).

(** Identity mappings with the TX axis disabled (source index 6). *)
Definition disabled_tx_mappings : Mappings := fun i =>
  mk_map (mk_opts (if i =? 0 then 6 else Z.of_nat i) false (of_Z 0) false)
         (fun x => x) (fun x => x).

(** A pipeline on which tracking has not started. *)
Definition fresh_pipeline : pipeline :=
  mk_pipeline bits.init false pzero (mk_scaled rmat_eye rmat_eye ezero)
              idle_reltrans None pzero pzero.

(** Settings that ask for a center when tracking starts. *)
Definition startup_settings : main_settings :=
  mk_settings true reltrans_disabled false false false false false false false 0.

(* ================================================================== *)
(** ** Facts about the number model *)

Lemma same_eq (x y : double) : Dbl.same x y = true -> x = y.
Proof.
  destruct x as [a|s|], y as [c|t|]; simpl; try discriminate; auto.
  - intros H. apply Qc_eq_bool_correct in H. now subst.
  - intros H. apply Bool.eqb_prop in H. now subst.
Qed.

Lemma same_refl (x : double) : Dbl.same x x = true.
Proof.
  destruct x as [a|s|]; simpl; auto.
  - unfold Qc_eq_bool. destruct (Qc_eq_dec a a); congruence.
  - apply Bool.eqb_reflx.
Qed.

Lemma same_neq (x y : double) : Dbl.same x y = false -> x <> y.
Proof. intros H E. subst. rewrite same_refl in H. discriminate. Qed.

Lemma pose_same_eq (u v : Pose) : pose_same u v = true -> u = v.
Proof.
  destruct u, v. unfold pose_same. cbn [seq forallb pget p0 p1 p2 p3 p4 p5].
  rewrite !andb_true_iff. intros H.
  repeat match goal with H : _ /\ _ |- _ => destruct H end.
  repeat match goal with H : Dbl.same _ _ = true |- _ => apply same_eq in H end.
  congruence.
Qed.

Lemma euler_same_eq (u v : euler_t) : euler_same u v = true -> u = v.
Proof.
  destruct u, v. unfold euler_same. cbn [seq forallb eget e0 e1 e2].
  rewrite !andb_true_iff. intros H.
  repeat match goal with H : _ /\ _ |- _ => destruct H end.
  repeat match goal with H : Dbl.same _ _ = true |- _ => apply same_eq in H end.
  congruence.
Qed.

(** Closes a goal [u = v] between evaluated poses, vectors or doubles. *)
Ltac by_evaluation :=
  first [ apply pose_same_eq | apply euler_same_eq | apply same_eq ];
  vm_compute; reflexivity.

Lemma Qcltb_lt (a c : Qc) : Qcltb a c = true <-> (a < c)%Qc.
Proof.
  unfold Qcltb. rewrite Qclt_alt.
  destruct (a ?= c)%Qc; split; congruence.
Qed.

Lemma Qcltb_ge (a c : Qc) : Qcltb a c = false <-> (c <= a)%Qc.
Proof.
  split.
  - intros H. apply Qcnot_lt_le. intros Hlt. apply Qcltb_lt in Hlt. congruence.
  - intros H. destruct (Qcltb a c) eqn:E; try reflexivity.
    apply Qcltb_lt in E. exfalso. exact (Qcle_not_lt _ _ H E).
Qed.

Lemma Qtrunc_comp (p q : Q) : (p == q)%Q -> Qtrunc p = Qtrunc q.
Proof.
  destruct p as [n1 d1], q as [n2 d2]. unfold Qeq, Qtrunc. cbn [Qnum Qden].
  intros H.
  rewrite <- (Z.quot_mul_cancel_r n1 (Zpos d1) (Zpos d2)) by lia.
  rewrite <- (Z.quot_mul_cancel_r n2 (Zpos d2) (Zpos d1)) by lia.
  rewrite H. f_equal. lia.
Qed.

(** Truncation commutes with an integer shift that does not cross zero. *)
Lemma Qtrunc_add_Z (a : Q) (k : Z) :
  ((0 <= a /\ 0 <= a + inject_Z k) \/ (a <= 0 /\ a + inject_Z k <= 0))%Q ->
  Qtrunc (a + inject_Z k) = (Qtrunc a + k)%Z.
Proof.
  destruct a as [n d]. unfold Qle, Qplus, Qtrunc, inject_Z. cbn [Qnum Qden].
  intros H.
  replace (Zpos (d * 1)) with (Zpos d) by lia.
  replace (n * 1 + k * Zpos d)%Z with (n + k * Zpos d)%Z by lia.
  apply Z.quot_add; [lia|]. nia.
Qed.

Lemma this_div_shift (x : Qc) (k : Z) :
  (this ((x + qz 360 * qz k) / qz 360)%Qc == this x / inject_Z 360 + inject_Z k)%Q.
Proof.
  unfold Qcdiv, Qcmult, Qcinv, Qcplus, qz, Q2Qc. cbn [this].
  rewrite !Qred_correct. field.
Qed.

Lemma this_div (x : Qc) : (this (x / qz 360)%Qc == this x / inject_Z 360)%Q.
Proof.
  unfold Qcdiv, Qcmult, Qcinv, qz, Q2Qc. cbn [this].
  rewrite !Qred_correct. reflexivity.
Qed.

Lemma Qctrunc_shift (x : Qc) (k : Z) :
  same_sign x (x + qz 360 * qz k)%Qc ->
  Qctrunc ((x + qz 360 * qz k) / qz 360)%Qc = (Qctrunc (x / qz 360)%Qc + k)%Z.
Proof.
  intros H. unfold Qctrunc.
  rewrite (@Qtrunc_comp _ _ (this_div_shift x k)), (@Qtrunc_comp _ _ (this_div x)).
  apply Qtrunc_add_Z.
  assert (E : (this (x + qz 360 * qz k)%Qc == this x + inject_Z 360 * inject_Z k)%Q).
  { unfold Qcmult, Qcplus, qz, Q2Qc. cbn [this]. rewrite !Qred_correct. reflexivity. }
  unfold same_sign, Qcle in H. rewrite E in H.
  unfold qz, Q2Qc in H. cbn [this] in H. rewrite !Qred_correct in H.
  assert (E0 : (inject_Z 0 == 0)%Q) by reflexivity.
  rewrite E0 in H.
  assert (E2 : (this x / inject_Z 360 + inject_Z k
                == (this x + inject_Z 360 * inject_Z k) / inject_Z 360)%Q) by field.
  rewrite E2.
  assert (Hpos : forall y : Q, (0 <= y <-> 0 <= y / inject_Z 360)%Q).
  { intros y. unfold Qdiv. change (/ inject_Z 360)%Q with (1 # 360)%Q.
    split; intros; lra. }
  assert (Hneg : forall y : Q, (y <= 0 <-> y / inject_Z 360 <= 0)%Q).
  { intros y. unfold Qdiv. change (/ inject_Z 360)%Q with (1 # 360)%Q.
    split; intros; lra. }
  rewrite <- !Hpos, <- !Hneg. exact H.
Qed.

Lemma qz_add (a c : Z) : qz (a + c) = (qz a + qz c)%Qc.
Proof.
  unfold qz. unfold Qcplus. apply Q2Qc_eq_iff. cbn [this Q2Qc].
  rewrite !Qred_correct. rewrite inject_Z_plus. reflexivity.
Qed.

(** [std::fmod(., 360)] does not see whole turns added on the same side of
    zero. *)
Lemma fmod_periodic (x : Qc) (k : Z) :
  same_sign x (x + qz 360 * qz k)%Qc ->
  fmod (DFin x + of_Z 360 * of_Z k)%D (of_Z 360) = fmod (DFin x) (of_Z 360).
Proof.
  intros H. unfold of_Z. cbn [Dbl.add Dbl.mul].
  unfold fmod. change (Qc_eq_bool (qz 360) (qz 0)) with false. cbv iota.
  f_equal. rewrite (@Qctrunc_shift x k H), qz_add. ring.
Qed.

Lemma clamp_fin_range (a : Qc) :
  in_rotation_range (clamp (DFin a) (of_Z (-180)) (of_Z 180)).
Proof.
  unfold in_rotation_range, clamp, Dbl.gtb, Dbl.ltb, of_Z.
  destruct (Qcltb (qz 180) a) eqn:Hhi.
  - exists (qz 180). split; [reflexivity|]. split; [|apply Qcle_refl].
    apply Qcltb_ge. reflexivity.
  - destruct (Qcltb a (qz (-180))) eqn:Hlo.
    + exists (qz (-180)). split; [reflexivity|]. split; [apply Qcle_refl|].
      apply Qcltb_ge. reflexivity.
    + exists a. split; [reflexivity|]. split; apply Qcltb_ge; assumption.
Qed.

(* ================================================================== *)
(** ** [clamp_value] *)

Lemma clamp_value_step_slot (value : Pose) (i : nat) :
  clamp_value_step value i = pset value i (clamp_angle (pget value i)).
Proof.
  unfold clamp_value_step, clamp_angle.
  destruct value as [a0 a1 a2 a3 a4 a5].
  destruct i as [|[|[|[|[|[|i]]]]]]; cbn [pget pset p0 p1 p2 p3 p4 p5];
    match goal with |- context [if ?c then _ else _] => destruct c end;
    cbn [pget pset p0 p1 p2 p3 p4 p5]; try reflexivity.
Qed.

Lemma clamp_value_shape (value : Pose) :
  clamp_value value =
  mk_pose (p0 value) (p1 value) (p2 value)
          (clamp_angle (p3 value)) (clamp_angle (p4 value)) (clamp_angle (p5 value)).
Proof.
  unfold clamp_value, for_loop. cbn [seq fold_left].
  rewrite !clamp_value_step_slot. destruct value; reflexivity.
Qed.

Lemma clamp_angle_fin_range (a : Qc) : in_rotation_range (clamp_angle (DFin a)).
Proof. unfold clamp_angle. apply clamp_fin_range. Qed.

(** C1.  The spec's examples for the rotation clamp are 190 -> -170 and
    -185 -> 175.  [clamp_value] as written gives 180 and -180: the folded
    value stored at line 323 is overwritten at line 324 by the clamp of
    the unfolded [x]. *)
Theorem clamp_value_examples :
  clamp_value (rotation_pose 190 (-185) 0) = rotation_pose 180 (-180) 0.
Proof. by_evaluation. Qed.

(** C4.  For every pose whose rotation slots hold numbers (which is what
    [nan_check] lets through to [clamp_value]), the three rotation slots of
    the result are numbers in [-180, 180]; the translation slots come out
    as they went in, whatever they hold. *)
Theorem clamp_value_rotation_range (tx ty tz : double) (yaw pitch roll : Qc) :
  let value := mk_pose tx ty tz (DFin yaw) (DFin pitch) (DFin roll) in
  in_rotation_range (pget (clamp_value value) Yaw)
  /\ in_rotation_range (pget (clamp_value value) Pitch)
  /\ in_rotation_range (pget (clamp_value value) Roll)
  /\ pget (clamp_value value) TX = tx
  /\ pget (clamp_value value) TY = ty
  /\ pget (clamp_value value) TZ = tz.
Proof.
  intros value. rewrite clamp_value_shape. subst value.
  cbn [pget Yaw Pitch Roll TX TY TZ p0 p1 p2 p3 p4 p5].
  repeat split; apply clamp_angle_fin_range.
Qed.

(** C5, as amended.  Whole turns added to a rotation value do not change
    the clamped result as long as the shifted value stays on the same side
    of zero. *)
Theorem clamp_value_periodic_same_sign (value : Pose) (i : nat) (x : Qc) (k : Z) :
  3 <= i < 6 ->
  same_sign x (x + qz 360 * qz k)%Qc ->
  pget (clamp_value (pset value i (DFin x + of_Z 360 * of_Z k)%D)) i
  = pget (clamp_value (pset value i (DFin x))) i.
Proof.
  intros Hi Hs. rewrite !clamp_value_shape.
  destruct value as [a0 a1 a2 a3 a4 a5].
  assert (E : i = 3 \/ i = 4 \/ i = 5) by lia.
  destruct E as [-> | [-> | ->]]; cbn [pget pset p0 p1 p2 p3 p4 p5];
    unfold clamp_angle; now rewrite fmod_periodic.
Qed.

(* ================================================================== *)
(** ** The compensator *)

Ltac qc_order :=
  unfold Qclt, Qcle, Qcopp, qz, Q2Qc in *; cbn [this] in *;
  rewrite ?Qred_correct in *; unfold inject_Z in *; lra.

Lemma Qcabs_gt (c y : Qc) :
  (qz 0 <= c)%Qc ->
  Qcltb c (Qcabs y) = true <-> ((c < y)%Qc \/ (y < - c)%Qc).
Proof.
  intros Hc. unfold Qcabs. destruct (Qcltb y (qz 0)) eqn:E.
  - apply Qcltb_lt in E. rewrite Qcltb_lt. split.
    + intros H. right. qc_order.
    + intros [H | H]; qc_order.
  - apply Qcltb_ge in E. rewrite Qcltb_lt. split.
    + intros H. now left.
    + intros [H | H]; [assumption | qc_order].
Qed.

Lemma in_zone_interpolate (r : reltrans) (clk : clock_reads) (rel : euler_t) :
  in_zone (fst (interpolate r clk rel)) = in_zone r.
Proof.
  unfold interpolate. destruct (cur r); [|reflexivity].
  repeat match goal with
         | |- context [if ?c then _ else _] => destruct c
         end; reflexivity.
Qed.

Lemma in_zone_apply_pipeline (r : reltrans) (clk : clock_reads) (state : reltrans_state)
    (value : Pose) (disable : vec_bool) (neck_enable : bool) (neck_z : Z) :
  in_zone (fst (apply_pipeline r clk state value disable neck_enable neck_z))
  = negb (reltrans_state_eqb state reltrans_disabled) && zone_test state value.
Proof.
  unfold apply_pipeline.
  destruct (reltrans_state_eqb state reltrans_disabled); cbn [negb andb].
  - reflexivity.
  - match goal with
    | |- context [interpolate ?a ?c ?t] =>
        pose proof (in_zone_interpolate a c t) as H;
        destruct (interpolate a c t) as [r' rel']
    end.
    cbn [fst] in *. rewrite H. reflexivity.
Qed.

(** C6.  In ZoneTriggered mode the zone flag the compensator leaves is: for
    pitch below 20, whether |yaw| exceeds 35; otherwise whether |yaw|
    exceeds 65.  In AlwaysOn mode the flag is always set.  The four sample
    points of the spec come out as stated. *)
Theorem zone_predicate (r : reltrans) (clk : clock_reads) (tx ty tz roll : double)
    (pitch yaw : Qc) (disable : vec_bool) (neck_enable : bool) (neck_z : Z) :
  let value := mk_pose tx ty tz (DFin yaw) (DFin pitch) roll in
  let zoned state v :=
    in_zone (fst (apply_pipeline r clk state v disable neck_enable neck_z)) in
  (zoned reltrans_non_center value = true <->
     ((pitch < qz 20)%Qc /\ ((qz 35 < yaw)%Qc \/ (yaw < - qz 35)%Qc))
     \/ (~ (pitch < qz 20)%Qc /\ ((qz 65 < yaw)%Qc \/ (yaw < - qz 65)%Qc)))
  /\ zoned reltrans_enabled value = true
  /\ zoned reltrans_non_center (rotation_pose 40 10 0) = true
  /\ zoned reltrans_non_center (rotation_pose 30 10 0) = false
  /\ zoned reltrans_non_center (rotation_pose 70 25 0) = true
  /\ zoned reltrans_non_center (rotation_pose 60 25 0) = false.
Proof.
  intros value zoned. subst zoned. cbv beta.
  rewrite !in_zone_apply_pipeline.
  split; [|repeat split; reflexivity].
  cbn [reltrans_state_eqb negb andb]. subst value.
  unfold zone_test. cbn [reltrans_state_eqb pget Pitch Yaw p3 p4].
  unfold Dbl.gtb, of_Z. cbn [Dbl.ltb fabs].
  destruct (Qcltb pitch (qz 20)) eqn:E.
  - apply Qcltb_lt in E. rewrite Qcabs_gt by (apply Qcltb_ge; reflexivity).
    split; [intros H; left; now split|].
    intros [[_ H] | [H _]]; [assumption | contradiction].
  - apply Qcltb_ge in E. rewrite Qcabs_gt by (apply Qcltb_ge; reflexivity).
    assert (N : ~ (pitch < qz 20)%Qc) by (now apply Qcle_not_lt).
    split; [intros H; right; now split|].
    intros [[H _] | [_ H]]; [contradiction | assumption].
Qed.

Lemma RC_stage_at_line_121 (r : reltrans) (clk : clock_reads) (state : reltrans_state)
    (value : Pose) :
  RC_stage (at_line_121 r clk state value)
  = if negb (cur r) && negb (Bool.eqb (in_zone r) (zone_test state value))
    then 0 else RC_stage r.
Proof.
  unfold at_line_121, arm.
  destruct (negb (cur r) && negb (Bool.eqb (in_zone r) (zone_test state value)));
    reflexivity.
Qed.

(** The filter step against the schedule of the spec. *)
Lemma interpolate_spec (r : reltrans) (clk : clock_reads) (target : euler_t) :
  RC_stage r <= 4 ->
  let out := interpolate r clk target in
  RC_stage (fst out) <= 4
  /\ if cur r then
       let stage := spec_next_stage (RC_stage r)
                      (elapsed_seconds (interp_phase_timer r) (at_phase clk)) in
       let dt := elapsed_seconds (interp_timer r) (at_dt clk) in
       let alpha := spec_alpha dt (spec_RC stage) in
       RC_stage (fst out) = stage
       /\ interp_pos (fst out) = spec_low_pass (interp_pos r) target alpha
       /\ snd out = interp_pos (fst out)
       /\ cur (fst out)
          = negb (L1_distance target (interp_pos (fst out)) <? double_0_01)%D
     else
       interp_pos (fst out) = target /\ snd out = target /\ cur (fst out) = false.
Proof.
  intros Hs out. subst out. unfold interpolate.
  destruct (cur r) eqn:Hcur.
  2:{ cbn. repeat split; try assumption. }
  destruct r as [ip iz c it ipt st]. cbn in Hs, Hcur. subst c.
  cbn [RC_stage interp_timer interp_phase_timer interp_pos set_interp_timer
       set_RC_stage set_interp_phase_timer set_interp_pos set_cur in_zone cur].
  unfold spec_next_stage.
  assert (St : st = 0 \/ st = 1 \/ st = 2 \/ st = 3 \/ st = 4) by lia.
  destruct St as [-> | [-> | [-> | [-> | ->]]]];
    cbn [Nat.add Nat.ltb Nat.leb length RC_stages RC_time_deltas nth andb
         spec_threshold];
    match goal with
    | |- context [(elapsed_seconds ?t ?n >? ?d)%D] =>
        destruct (elapsed_seconds t n >? d)%D
    | _ => idtac
    end;
    cbn [RC_stage interp_timer interp_phase_timer interp_pos set_interp_timer
         set_RC_stage set_interp_phase_timer set_interp_pos set_cur in_zone cur
         nth RC_stages spec_RC];
    try match goal with
    | |- context [if ?c then set_cur _ _ else _] => destruct c eqn:Hd
    end;
    cbn [fst snd RC_stage interp_pos cur set_cur];
    (split; [cbn; lia|]);
    (split; [reflexivity|]); (split; [reflexivity|]); (split; [reflexivity|]);
    unfold L1_distance, esub in *;
    cbn [e0 e1 e2 eget interp_pos set_interp_pos set_cur] in *;
    rewrite Hd; reflexivity.
Qed.

Lemma apply_pipeline_running (r : reltrans) (clk : clock_reads) (state : reltrans_state)
    (value : Pose) (disable : vec_bool) (neck_enable : bool) (neck_z : Z) :
  state <> reltrans_disabled ->
  let r1 := at_line_121 r clk state value in
  let target := compensate r1 state value disable neck_enable neck_z
                          (pose_translation value) in
  let out := interpolate r1 clk target in
  apply_pipeline r clk state value disable neck_enable neck_z
  = (fst out, mk_pose (e0 (snd out)) (e1 (snd out)) (e2 (snd out))
                      (p3 value) (p4 value) (p5 value)).
Proof.
  intros Hst r1 target out. unfold apply_pipeline.
  destruct state; try congruence; cbn [reltrans_state_eqb negb];
    fold (at_line_121 r clk reltrans_enabled value);
    fold (at_line_121 r clk reltrans_non_center value);
    fold r1; fold target; fold out; destruct out; reflexivity.
Qed.

(** The three literals are the values of their types nearest to the
    decimals: a 24-bit (resp. 53-bit) significand over a power of two, and
    within half a unit of the last place of 0.1, 0.05 and 0.01. *)
Lemma literals_nearest :
  float_0_1 = of_frac 13421773 (2 ^ 27)
  /\ float_0_05 = of_frac 13421773 (2 ^ 28)
  /\ double_0_01 = of_frac 5764607523034235 (2 ^ 59)
  /\ (2 ^ 23 <= 13421773 < 2 ^ 24)%Z
  /\ (2 ^ 52 <= 5764607523034235 < 2 ^ 53)%Z
  /\ ((1 # 10) - (1 # 2 ^ 28) <= 13421773 # 2 ^ 27 <= (1 # 10) + (1 # 2 ^ 28))%Q
  /\ ((1 # 20) - (1 # 2 ^ 29) <= 13421773 # 2 ^ 28 <= (1 # 20) + (1 # 2 ^ 29))%Q
  /\ ((1 # 100) - (1 # 2 ^ 60) <= 5764607523034235 # 2 ^ 59
      <= (1 # 100) + (1 # 2 ^ 60))%Q.
Proof.
  repeat split; try reflexivity; vm_compute; discriminate.
Qed.

Lemma interpolate_timers (r : reltrans) (clk : clock_reads) (target : euler_t) :
  let out := interpolate r clk target in
  if cur r then
    interp_timer (fst out) = Timer_start (at_restart clk)
    /\ interp_phase_timer (fst out)
       = (if RC_stage (fst out) =? RC_stage r then interp_phase_timer r
          else Timer_start (at_phase_restart clk))
  else
    RC_stage (fst out) = RC_stage r
    /\ interp_timer (fst out) = interp_timer r
    /\ interp_phase_timer (fst out) = interp_phase_timer r.
Proof.
  cbv zeta. unfold interpolate. destruct (cur r); [|repeat split].
  assert (N : (RC_stage r + 1 =? RC_stage r) = false) by (apply Nat.eqb_neq; lia).
  destruct (_ && _);
    match goal with
    | |- context [if ?c then set_cur _ _ else _] => destruct c
    end;
    cbn [fst RC_stage interp_timer interp_phase_timer set_interp_timer set_RC_stage
         set_interp_phase_timer set_interp_pos set_cur];
    rewrite ?N, ?Nat.eqb_refl; split; reflexivity.
Qed.

Lemma at_line_121_spec (r : reltrans) (clk : clock_reads) (state : reltrans_state)
    (value : Pose) :
  let r1 := at_line_121 r clk state value in
  interp_pos r1 = interp_pos r
  /\ in_zone r1 = zone_test state value
  /\ if negb (cur r) && negb (Bool.eqb (in_zone r) (zone_test state value))
     then cur r1 = true /\ RC_stage r1 = 0
          /\ interp_timer r1 = Timer_start (at_arm_interp clk)
          /\ interp_phase_timer r1 = Timer_start (at_arm_phase clk)
     else cur r1 = cur r /\ RC_stage r1 = RC_stage r
          /\ interp_timer r1 = interp_timer r
          /\ interp_phase_timer r1 = interp_phase_timer r.
Proof.
  cbv zeta. unfold at_line_121, arm.
  destruct (negb (cur r) && negb (Bool.eqb (in_zone r) (zone_test state value)));
    repeat split.
Qed.

(** C7.  With the compensator running (mode other than Disabled) and the
    stage index within the schedule.  On a change of zone membership with no
    transition active, a transition is armed: both timers start and the
    stage is 0.  While a transition is active at line 121, the cycle restarts
    the cycle timer, moves to the next stage - restarting the phase timer -
    when the phase timer is past the threshold of the stage from
    {1, 0.25, 0.25, 2} (never beyond the last stage), takes RC from the
    schedule {2, 1, 0.5, 0.1, 0.05} (held in single precision) at that stage,
    computes alpha = dt / (dt + RC), moves the filtered value to
    interp * (1 - alpha) + target * alpha, outputs it, and clears the
    transition flag exactly when the L1 distance from the target is below
    0.01.  With no transition active the filtered value and the output are
    the target itself, and stage and timers stay as they are. *)
Theorem staged_low_pass (r : reltrans) (clk : clock_reads) (state : reltrans_state)
    (value : Pose) (disable : vec_bool) (neck_enable : bool) (neck_z : Z) :
  state <> reltrans_disabled ->
  RC_stage r <= 4 ->
  let r1 := at_line_121 r clk state value in
  let target := compensate r1 state value disable neck_enable neck_z
                          (pose_translation value) in
  let out := apply_pipeline r clk state value disable neck_enable neck_z in
  RC_stage (fst out) <= 4
  /\ (if cur r1 then
       let stage := spec_next_stage (RC_stage r1)
                      (elapsed_seconds (interp_phase_timer r1) (at_phase clk)) in
       let dt := elapsed_seconds (interp_timer r1) (at_dt clk) in
       let alpha := spec_alpha dt (spec_RC stage) in
       RC_stage (fst out) = stage
       /\ interp_pos (fst out) = spec_low_pass (interp_pos r1) target alpha
       /\ pose_translation (snd out) = interp_pos (fst out)
       /\ cur (fst out)
          = negb (L1_distance target (interp_pos (fst out)) <? double_0_01)%D
     else
       interp_pos (fst out) = target
       /\ pose_translation (snd out) = target
       /\ cur (fst out) = false)
  /\ (if cur r1 then
        interp_timer (fst out) = Timer_start (at_restart clk)
        /\ interp_phase_timer (fst out)
           = (if RC_stage (fst out) =? RC_stage r1 then interp_phase_timer r1
              else Timer_start (at_phase_restart clk))
      else
        RC_stage (fst out) = RC_stage r1
        /\ interp_timer (fst out) = interp_timer r1
        /\ interp_phase_timer (fst out) = interp_phase_timer r1)
  /\ interp_pos r1 = interp_pos r
  /\ in_zone r1 = zone_test state value
  /\ (if negb (cur r) && negb (Bool.eqb (in_zone r) (zone_test state value))
      then cur r1 = true /\ RC_stage r1 = 0
           /\ interp_timer r1 = Timer_start (at_arm_interp clk)
           /\ interp_phase_timer r1 = Timer_start (at_arm_phase clk)
      else cur r1 = cur r /\ RC_stage r1 = RC_stage r
           /\ interp_timer r1 = interp_timer r
           /\ interp_phase_timer r1 = interp_phase_timer r).
Proof.
  intros Hst Hs r1 target out. subst out.
  rewrite apply_pipeline_running by assumption. fold r1. fold target.
  assert (Hs1 : RC_stage r1 <= 4).
  { subst r1. rewrite RC_stage_at_line_121.
    destruct (negb (cur r) && negb (Bool.eqb (in_zone r) (zone_test state value))); lia. }
  pose proof (interpolate_spec r1 clk target Hs1) as H. cbv zeta in H.
  destruct H as [Hle H]. cbn [fst snd]. split; [exact Hle|].
  assert (Et : forall t a0 a1 a2,
             pose_translation (mk_pose (e0 t) (e1 t) (e2 t) a0 a1 a2) = t)
    by (intros [] ? ? ?; reflexivity).
  split; [| split; [exact (interpolate_timers r1 clk target)
                   | exact (at_line_121_spec r clk state value)]].
  destruct (cur r1).
  - cbv zeta. rewrite Et. exact H.
  - rewrite Et. exact H.
Qed.

(** C8.  [on_center] leaves the zone flag false, the transition flag false
    and the interpolated position at the origin; and [apply_reltrans] with
    the center flag runs the compensator on that reset state. *)
Theorem center_resets_compensator (r : reltrans) (s : main_settings) (p : pipeline)
    (clk : clock_reads) (value : Pose) (disabled : vec_bool) :
  in_zone (on_center r) = false
  /\ cur (on_center r) = false
  /\ interp_pos (on_center r) = mk_euler (of_Z 0) (of_Z 0) (of_Z 0)
  /\ apply_reltrans s p clk value disabled true
     = apply_reltrans s (set_rel p (on_center (rel p))) clk value disabled false.
Proof. repeat split. Qed.

Lemma apply_neck_spec (R : rmat) (neck_z : Z) (tz_disabled : bool) :
  apply_neck R (- neck_z) tz_disabled = spec_neck_offset R neck_z tz_disabled.
Proof.
  unfold apply_neck, spec_neck_offset.
  destruct (rotate R _ no_axis) as [a0 a1 a2].
  destruct tz_disabled; reflexivity.
Qed.

Lemma add_neck_loop (u v : euler_t) :
  for_loop 0 3 (fun rel k => eset rel k (eget rel k + eget v k)%D) u = eadd u v.
Proof. destruct u, v. reflexivity. Qed.

(** C9, as amended.  The neck model runs exactly when neck is enabled and
    the mode is AlwaysOn: [apply_pipeline] is the pipeline whose filter is
    aimed at [spec_target], where the offset [spec_neck_offset] (the pure-Z
    vector of magnitude [neck_z] through the rotation primitive with the
    zone's matrix, minus its original Z, Z zeroed when TZ is disabled) is
    added to the rotated translation under [neck_runs] and not otherwise. *)
Theorem neck_model (r : reltrans) (clk : clock_reads) (state : reltrans_state)
    (value : Pose) (disable : vec_bool) (neck_enable : bool) (neck_z : Z) :
  apply_pipeline r clk state value disable neck_enable neck_z
  = spec_apply_pipeline r clk state value disable neck_enable neck_z.
Proof.
  destruct state.
  - destruct value; reflexivity.
  - rewrite apply_pipeline_running by discriminate. cbv zeta.
    unfold spec_apply_pipeline.
    assert (E : compensate (at_line_121 r clk reltrans_enabled value) reltrans_enabled
                  value disable neck_enable neck_z (pose_translation value)
                = spec_target reltrans_enabled value disable neck_enable neck_z).
    { unfold compensate, spec_target, at_line_121, neck_runs, zone_rmat.
      cbn [in_zone set_in_zone reltrans_state_eqb negb orb zone_test].
      rewrite andb_true_r. destruct neck_enable; [|reflexivity].
      rewrite add_neck_loop, apply_neck_spec. reflexivity. }
    rewrite E. destruct (interpolate _ clk _). reflexivity.
  - rewrite apply_pipeline_running by discriminate. cbv zeta.
    unfold spec_apply_pipeline.
    assert (E : compensate (at_line_121 r clk reltrans_non_center value)
                  reltrans_non_center value disable neck_enable neck_z
                  (pose_translation value)
                = spec_target reltrans_non_center value disable neck_enable neck_z).
    { unfold compensate, spec_target, at_line_121, neck_runs, zone_rmat.
      cbn [in_zone set_in_zone reltrans_state_eqb negb orb].
      destruct (zone_test reltrans_non_center value); [|reflexivity].
      cbn [negb]. rewrite andb_false_r. reflexivity. }
    rewrite E. destruct (interpolate _ clk _). reflexivity.
Qed.

Lemma RC_stage_interpolate_ge (r : reltrans) (clk : clock_reads) (rel : euler_t) :
  RC_stage r <= RC_stage (fst (interpolate r clk rel)).
Proof.
  unfold interpolate. destruct (cur r); [|cbn; lia].
  repeat match goal with
         | |- context [if ?c then _ else _] => destruct c
         end; cbn; lia.
Qed.

(** C10.  [on_center] leaves the RC-stage index as it was.  A call of
    [apply_pipeline] that does not arm a transition never lowers the index;
    a call that arms one restarts the count from stage 0 (and may already
    take the first step of the schedule). *)
Theorem center_keeps_RC_stage (r : reltrans) (clk : clock_reads) (state : reltrans_state)
    (value : Pose) (disable : vec_bool) (neck_enable : bool) (neck_z : Z) :
  RC_stage (on_center r) = RC_stage r
  /\ let r' := fst (apply_pipeline r clk state value disable neck_enable neck_z) in
     if arms r state value
     then RC_stage r'
          = spec_next_stage 0 (elapsed_seconds (Timer_start (at_arm_phase clk))
                                               (at_phase clk))
     else RC_stage r <= RC_stage r'.
Proof.
  split; [reflexivity|]. cbv zeta. unfold arms.
  destruct state.
  - cbn. lia.
  - rewrite apply_pipeline_running by discriminate. cbv zeta. cbn [fst].
    cbn [reltrans_state_eqb negb andb].
    destruct (negb (cur r) && negb (Bool.eqb (in_zone r) (zone_test reltrans_enabled value)))
      eqn:Harm.
    + match goal with |- context [interpolate ?a clk ?t] =>
        pose proof (interpolate_spec a clk t) as H end.
      unfold at_line_121, arm in *. rewrite Harm in *.
      cbn [RC_stage set_in_zone set_RC_stage cur set_cur set_interp_timer
           set_interp_phase_timer interp_phase_timer] in *.
      specialize (H ltac:(lia)). cbv zeta in H. tauto.
    + match goal with |- context [interpolate ?a clk ?t] =>
        pose proof (RC_stage_interpolate_ge a clk t) as H end.
      unfold at_line_121, arm in *. rewrite Harm in *. exact H.
  - rewrite apply_pipeline_running by discriminate. cbv zeta. cbn [fst].
    cbn [reltrans_state_eqb negb andb].
    destruct (negb (cur r) && negb (Bool.eqb (in_zone r) (zone_test reltrans_non_center value)))
      eqn:Harm.
    + match goal with |- context [interpolate ?a clk ?t] =>
        pose proof (interpolate_spec a clk t) as H end.
      unfold at_line_121, arm in *. rewrite Harm in *.
      cbn [RC_stage set_in_zone set_RC_stage cur set_cur set_interp_timer
           set_interp_phase_timer interp_phase_timer] in *.
      specialize (H ltac:(lia)). cbv zeta in H. tauto.
    + match goal with |- context [interpolate ?a clk ?t] =>
        pose proof (RC_stage_interpolate_ge a clk t) as H end.
      unfold at_line_121, arm in *. rewrite Harm in *. exact H.
Qed.

(* ================================================================== *)
(** ** The cycle *)

Lemma get_zero_set_center (w : bits.t) (v : bool) :
  bits.get (bits.set w f_center v) f_zero = bits.get w f_zero.
Proof.
  unfold bits.get, bits.set, f_center, f_zero. do 2 f_equal.
  apply N.bits_inj. intros n.
  rewrite !N.land_spec, N.lor_spec, N.ldiff_spec.
  change 16%N with (2 ^ 4)%N. rewrite N.pow2_bits_eqb.
  destruct (N.eqb_spec 4 n) as [<- | _].
  - destruct v; cbn; now rewrite ?andb_true_r, ?orb_false_r.
  - now rewrite !andb_false_r.
Qed.

Lemma zero_loop (value : Pose) :
  for_loop 0 6 (fun value i => pset value i (of_Z 0)) value = pzero.
Proof. destruct value; reflexivity. Qed.

Lemma frozen_view_maybe_enable (s : main_settings) (p : pipeline) :
  frozen_view (maybe_enable_center_on_tracking_started s p) = frozen_view p.
Proof.
  unfold maybe_enable_center_on_tracking_started.
  destruct (negb (tracking_started p)); [|reflexivity].
  destruct (existsb _ _);
    match goal with |- context [if ?c then _ else _] => destruct c end;
    try reflexivity;
    unfold frozen_view; cbn [b set_b output_pose raw_6dof set_tracking_started];
    now rewrite get_zero_set_center.
Qed.

Lemma frozen_view_store (p : pipeline) (value : Pose) :
  frozen_view (store_tracker_pose p value) = frozen_view p.
Proof. reflexivity. Qed.

Lemma frozen_view_set_center_pose (p : pipeline) (value : Pose) (own : bool) :
  frozen_view (maybe_set_center_pose p value own) = frozen_view p.
Proof.
  unfold maybe_set_center_pose.
  destruct (bits.get _ _); [|reflexivity]. destruct own; reflexivity.
Qed.

Lemma frozen_view_filter (p : pipeline) (value : Pose) :
  frozen_view (fst (maybe_apply_filter p value)) = frozen_view p.
Proof.
  unfold maybe_apply_filter. destruct (pFilter p) as [fs|]; [|reflexivity].
  destruct (filter_filter fs value value). reflexivity.
Qed.

Lemma frozen_view_reltrans (s : main_settings) (p : pipeline) (clk : clock_reads)
    (value : Pose) (disabled : vec_bool) (centerp : bool) :
  frozen_view (fst (apply_reltrans s p clk value disabled centerp)) = frozen_view p.
Proof.
  unfold apply_reltrans.
  destruct (apply_pipeline _ _ _ _ _ _ _) as [r v]. destruct centerp; reflexivity.
Qed.

(** Nothing before the labels touches what the frozen cycle reads. *)
Lemma frozen_view_logic_body (m : Mappings) (s : main_settings) (p : pipeline)
    (inp : cycle_input) (co own hold : bool) :
  frozen_view (fst (logic_body m s p inp co own hold)) = frozen_view p.
Proof.
  unfold logic_body. cbv zeta. unfold get_selected_axis_values. cbv zeta.
  destruct (_ || _); [reflexivity|].
  match goal with |- context [maybe_apply_filter ?q ?v] =>
    pose proof (frozen_view_filter q v) as Hf;
    destruct (maybe_apply_filter q v) as [pf tmp] end.
  cbn [fst] in Hf.
  rewrite frozen_view_set_center_pose, frozen_view_store, frozen_view_maybe_enable in Hf.
  change (frozen_view (set_newpose p (tracker_data inp))) with (frozen_view p) in Hf.
  destruct (is_nan tmp); [exact Hf|].
  match goal with |- context [apply_reltrans ?a ?q ?c ?v ?d ?e] =>
    pose proof (frozen_view_reltrans a q c v d e) as Hr;
    destruct (apply_reltrans a q c v d e) as [pr vr] end.
  cbn [fst] in Hr. rewrite Hf in Hr.
  destruct (is_nan _); [exact Hr|]. destruct (negb hold); exact Hr.
Qed.

Lemma hold_reaches_error (m : Mappings) (s : main_settings) (p : pipeline)
    (inp : cycle_input) (co own : bool) :
  snd (logic_body m s p inp co own true) = None.
Proof.
  unfold logic_body. cbv zeta. unfold get_selected_axis_values. cbv zeta.
  destruct (_ || _); [reflexivity|].
  destruct (maybe_apply_filter _ _) as [pf tmp].
  destruct (is_nan tmp); [reflexivity|].
  destruct (apply_reltrans _ _ _ _ _ _) as [pr vr].
  destruct (is_nan _); reflexivity.
Qed.

Lemma nan_reaches_error (m : Mappings) (s : main_settings) (p : pipeline)
    (inp : cycle_input) (co own hold : bool) :
  is_nan (tracker_data inp) = true ->
  snd (logic_body m s p inp co own hold) = None.
Proof.
  intros H. unfold logic_body. cbv zeta. unfold get_selected_axis_values. cbv zeta.
  cbn [newpose set_newpose]. rewrite H. reflexivity.
Qed.

(** A cycle that reaches [error:] publishes [frozen_pose] and keeps the raw
    pose of the cycle before. *)
Lemma error_publishes_frozen (m : Mappings) (s : main_settings) (p : pipeline)
    (inp : cycle_input) :
  snd (logic_body m s p inp
         (bits.get (b p) (N.lor f_center f_held_center) && tracking_started p)
         (bits.get (b p) (N.lor f_center f_held_center) && tracking_started p
          && tracker_center inp)
         (hold_ordered p)) = None ->
  snd (logic m s p inp) = frozen_pose m p
  /\ output_pose (fst (logic m s p inp)) = frozen_pose m p
  /\ raw_6dof (fst (logic m s p inp)) = raw_6dof p.
Proof.
  intros H. unfold logic. cbv zeta.
  match type of H with snd ?t = None =>
    pose proof (frozen_view_logic_body m s p inp
                  (bits.get (b p) (N.lor f_center f_held_center) && tracking_started p)
                  (bits.get (b p) (N.lor f_center f_held_center) && tracking_started p
                   && tracker_center inp)
                  (hold_ordered p)) as Hv;
    destruct t as [p1 res] end.
  cbn [fst snd] in *. subst res.
  unfold frozen_view in Hv. injection Hv as Ho Hr Hz.
  unfold logic_finish, frozen_pose. cbv zeta.
  cbn [fst snd b set_b output_pose raw_6dof set_output].
  rewrite get_zero_set_center, Hz, Ho, Hr, zero_loop. auto.
Qed.

(** C2.  Two consecutive cycles that fail the numeric check, with a zero
    offset of 1 on the TX axis and the last good pose (5, 0, 0, 10, 0, 0):
    the first publishes TX = 6, the second TX = 7.  The frozen pose is the
    previous output with the zero offsets added once more ([apply_zero_pos]
    at line 509 is reached from [error:] as well), so it is neither equal to
    the last good pose nor the same on both cycles. *)
Theorem freeze_adds_zero_offset_again :
  let m := sample_mappings 1 in
  let p := sample_pipeline bits.init in
  let first := logic m sample_settings p nan_input in
  let second := logic m sample_settings (fst first) nan_input in
  is_nan (tracker_data nan_input) = true
  /\ output_pose p = last_good
  /\ snd first = mk_pose (of_Z 6) (of_Z 0) (of_Z 0) (of_Z 10) (of_Z 0) (of_Z 0)
  /\ output_pose (fst first) = snd first
  /\ snd second = mk_pose (of_Z 7) (of_Z 0) (of_Z 0) (of_Z 10) (of_Z 0) (of_Z 0)
  /\ output_pose (fst second) = snd second.
Proof.
  cbv zeta. repeat split; try reflexivity; by_evaluation.
Qed.

Lemma add_zero_offset (x : double) (inv : bool) :
  (x + of_Z 0 * (if inv then of_Z (-1) else of_Z 1))%D = x.
Proof.
  destruct x as [a | s | ]; destruct inv; try reflexivity;
    unfold of_Z; cbn [Dbl.add Dbl.mul]; f_equal; unfold qz;
    apply Qc_is_canon; unfold Qcplus, Qcmult, Q2Qc; cbn [this];
    rewrite !Qred_correct; unfold inject_Z; ring.
Qed.

(** Without zero offsets [apply_zero_pos] is the identity, so a frozen
    cycle with the zero command off republishes the previous pose as it is. *)
Lemma frozen_pose_without_offsets (m : Mappings) (p : pipeline) :
  (forall i, i < 6 -> zero (opts (m i)) = of_Z 0) ->
  bits.get (b p) f_zero = false ->
  frozen_pose m p = output_pose p.
Proof.
  intros Hz Hflag. unfold frozen_pose. rewrite Hflag.
  unfold apply_zero_pos, for_loop. cbn [seq fold_left].
  destruct (output_pose p) as [a0 a1 a2 a3 a4 a5].
  cbn [pget pset p0 p1 p2 p3 p4 p5].
  rewrite !Hz by lia. now rewrite !add_zero_offset.
Qed.


(* ================================================================== *)
(** ** Command flags *)

Lemma land_flag_bit (w k : N) :
  N.land w (flag_bit k) = if N.testbit w k then flag_bit k else 0%N.
Proof.
  unfold flag_bit. apply N.bits_inj. intros n.
  rewrite N.land_spec, N.pow2_bits_eqb.
  destruct (N.eqb_spec k n) as [<- | Hn].
  - destruct (N.testbit w k) eqn:E; rewrite ?E.
    + now rewrite N.pow2_bits_eqb, N.eqb_refl.
    + now rewrite N.bits_0.
  - rewrite andb_false_r. destruct (N.testbit w k).
    + rewrite N.pow2_bits_eqb. symmetry. now apply N.eqb_neq.
    + now rewrite N.bits_0.
Qed.

Lemma get_flag_bit (w k : N) : bits.get w (flag_bit k) = N.testbit w k.
Proof.
  unfold bits.get. rewrite land_flag_bit. destruct (N.testbit w k).
  - unfold flag_bit. destruct (N.eqb_spec (2 ^ k) 0) as [E | _]; [|reflexivity].
    exfalso. revert E. apply N.pow_nonzero. discriminate.
  - reflexivity.
Qed.

Lemma testbit_set (w j k : N) (v : bool) :
  N.testbit (bits.set w (flag_bit j) v) k
  = if (j =? k)%N then v else N.testbit w k.
Proof.
  unfold bits.set, flag_bit.
  rewrite N.lor_spec, N.ldiff_spec, N.pow2_bits_eqb.
  destruct v.
  - rewrite N.mul_1_r, N.pow2_bits_eqb.
    destruct (j =? k)%N; cbn; now rewrite ?andb_false_r, ?andb_true_r, ?orb_false_r.
  - rewrite N.mul_0_r, N.bits_0.
    destruct (j =? k)%N; cbn; now rewrite ?andb_false_r, ?andb_true_r, ?orb_false_r.
Qed.

(** X1.  Setting a flag bit makes [get] of that flag return the value set
    and leaves [get] of every other flag bit as it was. *)
Theorem bits_get_set (w j k : N) (v : bool) :
  bits.get (bits.set w (flag_bit j) v) (flag_bit k)
  = if (j =? k)%N then v else bits.get w (flag_bit k).
Proof. now rewrite !get_flag_bit, testbit_set. Qed.

(** X2.  Negating a flag bit inverts [get] of that flag, leaves every other
    flag bit alone, and negating twice gives the word back. *)
Theorem bits_get_negate (w j k : N) :
  bits.get (bits.negate w (flag_bit j)) (flag_bit k)
  = (if (j =? k)%N then negb (bits.get w (flag_bit k)) else bits.get w (flag_bit k))
  /\ bits.negate (bits.negate w (flag_bit j)) (flag_bit j) = w.
Proof.
  split.
  - rewrite !get_flag_bit. unfold bits.negate, flag_bit.
    rewrite N.lxor_spec, N.pow2_bits_eqb.
    destruct (j =? k)%N; [now rewrite xorb_true_r | now rewrite xorb_false_r].
  - unfold bits.negate. now rewrite N.lxor_assoc, N.lxor_nilpotent, N.lxor_0_r.
Qed.

Lemma hold_ordered_bits (w : bits.t) (p : pipeline) :
  hold_ordered (set_b p w) = xorb (N.testbit w 3) (N.testbit w 2).
Proof.
  unfold hold_ordered. cbn [b set_b].
  change f_enabled_p with (flag_bit 3). change f_enabled_h with (flag_bit 2).
  now rewrite !get_flag_bit.
Qed.

Lemma hold_ordered_testbit (p : pipeline) :
  hold_ordered p = xorb (N.testbit (b p) 3) (N.testbit (b p) 2).
Proof.
  unfold hold_ordered.
  change f_enabled_p with (flag_bit 3). change f_enabled_h with (flag_bit 2).
  now rewrite !get_flag_bit.
Qed.

(** X3.  The hold decision under the commands: a pipeline with freshly
    constructed flags is not on hold; [toggle_enabled] inverts the decision;
    after [set_enabled v] it is EnabledPersistent XOR [v]; the center and
    zero commands leave it alone. *)
Theorem hold_under_commands (p : pipeline) (v : bool) :
  hold_ordered (set_b p bits.init) = false
  /\ hold_ordered (toggle_enabled p) = negb (hold_ordered p)
  /\ hold_ordered (set_enabled p v) = xorb (bits.get (b p) f_enabled_p) v
  /\ hold_ordered (set_center p) = hold_ordered p
  /\ hold_ordered (set_held_center p v) = hold_ordered p
  /\ hold_ordered (set_zero p v) = hold_ordered p
  /\ hold_ordered (toggle_zero p) = hold_ordered p.
Proof.
  unfold toggle_enabled, set_enabled, set_center, set_held_center, set_zero,
    toggle_zero.
  rewrite !hold_ordered_bits, (hold_ordered_testbit p).
  change f_enabled_p with (flag_bit 3). change f_enabled_h with (flag_bit 2).
  change f_center with (flag_bit 0). change f_held_center with (flag_bit 1).
  change f_zero with (flag_bit 4).
  rewrite !testbit_set, get_flag_bit. unfold bits.negate, flag_bit.
  rewrite !N.lxor_spec, !N.pow2_bits_eqb. cbn [N.eqb Pos.eqb].
  repeat split; try reflexivity.
  - now rewrite xorb_false_r, negb_xorb_l.
  - now rewrite !xorb_false_r.
Qed.

(* ================================================================== *)
(** ** The rotation primitive and the compensator, once more *)

(** Arithmetic on doubles that are numbers, reduced to the field [Qc]. *)
Ltac fin_ring :=
  unfold of_Z, Dbl.sub; cbn [Dbl.add Dbl.mul Dbl.neg];
  first [ reflexivity
        | apply (f_equal DFin);
          change (qz 0) with 0%Qc; change (qz 1) with 1%Qc; ring ].

(** X5.  [rotate] hands a disabled axis through as it came in, and what it
    puts on an enabled axis does not depend on which other axes are
    disabled. *)
Theorem rotate_disabled_axes (R : rmat) (inp : euler_t) (disable : vec_bool) :
  eget (rotate R inp disable) TX
  = (if disable TX then eget inp TX else eget (rotate R inp no_axis) TX)
  /\ eget (rotate R inp disable) TY
     = (if disable TY then eget inp TY else eget (rotate R inp no_axis) TY)
  /\ eget (rotate R inp disable) TZ
     = (if disable TZ then eget inp TZ else eget (rotate R inp no_axis) TZ).
Proof.
  unfold rotate, no_axis.
  destruct (disable TX), (disable TY), (disable TZ); repeat split.
Qed.

Lemma rotate_eye (a c d : Qc) (disable : vec_bool) :
  rotate rmat_eye (mk_euler (DFin a) (DFin c) (DFin d)) disable
  = mk_euler (DFin a) (DFin c) (DFin d).
Proof.
  unfold rotate, rmat_eye, rmat_mulv, dot.
  destruct (disable TX), (disable TY), (disable TZ);
    cbn [eget eset e0 e1 e2 TX TY TZ row0 row1 row2 ezero];
    f_equal; fin_ring.
Qed.

(** X6.  Through the identity matrix [rotate] returns a vector of numbers
    unchanged (the axis permutation and the sign changes cancel), and the
    neck offset is zero. *)
Theorem rotate_identity (a c d : Qc) (disable : vec_bool) (nz : Z) (disable_tz : bool) :
  rotate rmat_eye (mk_euler (DFin a) (DFin c) (DFin d)) disable
  = mk_euler (DFin a) (DFin c) (DFin d)
  /\ apply_neck rmat_eye nz disable_tz = mk_euler (of_Z 0) (of_Z 0) (of_Z 0).
Proof.
  split; [apply rotate_eye|].
  unfold apply_neck, of_Z. rewrite rotate_eye.
  destruct disable_tz; cbn [eget eset e0 e1 e2 TZ]; f_equal.
  cbn [Dbl.sub Dbl.add Dbl.neg]. f_equal. change (qz 0) with 0%Qc. ring.
Qed.

Lemma apply_pipeline_keeps_rotation (r : reltrans) (clk : clock_reads)
    (state : reltrans_state) (value : Pose) (disable : vec_bool)
    (neck_enable : bool) (neck_z : Z) :
  pose_rotation (snd (apply_pipeline r clk state value disable neck_enable neck_z))
  = pose_rotation value.
Proof.
  destruct state.
  - destruct value; reflexivity.
  - rewrite apply_pipeline_running by discriminate. reflexivity.
  - rewrite apply_pipeline_running by discriminate. reflexivity.
Qed.

(** X7.  [apply_pipeline] never changes the rotation slots of the pose, in
    any mode; and in mode Disabled it returns the whole pose unchanged,
    clears the zone and transition flags and keeps the filter memory, the
    timers and the stage index. *)
Theorem apply_pipeline_frame (r : reltrans) (clk : clock_reads) (state : reltrans_state)
    (value : Pose) (disable : vec_bool) (neck_enable : bool) (neck_z : Z) :
  let out := apply_pipeline r clk state value disable neck_enable neck_z in
  let off := apply_pipeline r clk reltrans_disabled value disable neck_enable neck_z in
  pose_rotation (snd out) = pose_rotation value
  /\ snd off = value
  /\ fst off = mk_reltrans (interp_pos r) false false (interp_timer r)
                           (interp_phase_timer r) (RC_stage r).
Proof.
  cbv zeta. split; [apply apply_pipeline_keeps_rotation|].
  split; [destruct value; reflexivity | reflexivity].
Qed.

(** X8.  In mode ZoneTriggered, with the pose outside the zone and the
    compensator settled there (no transition, zone flag clear), the pose
    goes through unchanged and the filter memory follows the translation. *)
Theorem settled_outside_zone (r : reltrans) (clk : clock_reads) (value : Pose)
    (disable : vec_bool) (neck_enable : bool) (neck_z : Z) :
  zone_test reltrans_non_center value = false ->
  cur r = false ->
  in_zone r = false ->
  let out := apply_pipeline r clk reltrans_non_center value disable neck_enable neck_z in
  snd out = value
  /\ interp_pos (fst out) = pose_translation value
  /\ cur (fst out) = false
  /\ in_zone (fst out) = false.
Proof.
  intros Hz Hc Hi. cbv zeta.
  rewrite apply_pipeline_running by discriminate. cbv zeta.
  destruct r as [ip iz c it ipt st]. cbn [cur in_zone] in Hc, Hi. subst c iz.
  unfold at_line_121, arm, compensate, interpolate. rewrite Hz.
  cbn. destruct value; repeat split.
Qed.

(* ================================================================== *)
(** ** The pose utilities, once more *)

Lemma Qtrunc_small (a : Q) : (-1 < a)%Q -> (a < 1)%Q -> Qtrunc a = 0%Z.
Proof.
  destruct a as [n d]. unfold Qlt, Qtrunc. cbn [Qnum Qden]. intros H1 H2.
  apply Z.quot_small_iff; lia.
Qed.

Lemma clamp_angle_in_range (q : Qc) :
  (qz (-180) <= q)%Qc -> (q <= qz 180)%Qc -> clamp_angle (DFin q) = DFin q.
Proof.
  intros Hlo Hhi. unfold clamp_angle.
  assert (Et : Qctrunc (q / qz 360)%Qc = 0%Z).
  { unfold Qctrunc. rewrite (@Qtrunc_comp _ _ (this_div q)).
    unfold Qcle, qz, Q2Qc in Hlo, Hhi. cbn [this] in Hlo, Hhi.
    rewrite ?Qred_correct in Hlo, Hhi. unfold inject_Z in *.
    apply Qtrunc_small; unfold Qdiv; change (/ (360 # 1))%Q with (1 # 360)%Q; lra. }
  assert (Ef : fmod (DFin q) (of_Z 360) = DFin q).
  { unfold fmod, of_Z. change (Qc_eq_bool (qz 360) (qz 0)) with false. cbv iota.
    rewrite Et. f_equal. change (qz 0) with 0%Qc. ring. }
  rewrite Ef. unfold clamp, Dbl.gtb, Dbl.ltb, of_Z.
  apply Qcltb_ge in Hlo, Hhi. now rewrite Hhi, Hlo.
Qed.

(** X10.  A pose whose rotation slots are numbers within [-180, 180] comes
    out of [clamp_value] exactly as it went in. *)
Theorem clamp_value_in_range (tx ty tz : double) (yaw pitch roll : Qc) :
  (qz (-180) <= yaw)%Qc /\ (yaw <= qz 180)%Qc ->
  (qz (-180) <= pitch)%Qc /\ (pitch <= qz 180)%Qc ->
  (qz (-180) <= roll)%Qc /\ (roll <= qz 180)%Qc ->
  clamp_value (mk_pose tx ty tz (DFin yaw) (DFin pitch) (DFin roll))
  = mk_pose tx ty tz (DFin yaw) (DFin pitch) (DFin roll).
Proof.
  intros [Y1 Y2] [P1 P2] [R1 R2]. rewrite clamp_value_shape.
  cbn [p0 p1 p2 p3 p4 p5]. now rewrite !clamp_angle_in_range.
Qed.

(** X11.  [clamp_value] is idempotent on poses whose rotation slots are
    numbers: clamping a clamped pose changes nothing. *)
Theorem clamp_value_idempotent (tx ty tz : double) (yaw pitch roll : Qc) :
  let value := mk_pose tx ty tz (DFin yaw) (DFin pitch) (DFin roll) in
  clamp_value (clamp_value value) = clamp_value value.
Proof.
  intros value. subst value. rewrite (clamp_value_shape (mk_pose _ _ _ _ _ _)).
  cbn [p0 p1 p2 p3 p4 p5].
  destruct (clamp_angle_fin_range yaw) as [y [Ey [Y1 Y2]]].
  destruct (clamp_angle_fin_range pitch) as [p [Ep [P1 P2]]].
  destruct (clamp_angle_fin_range roll) as [r [Er [R1 R2]]].
  rewrite Ey, Ep, Er, clamp_value_shape. cbn [p0 p1 p2 p3 p4 p5].
  now rewrite !clamp_angle_in_range.
Qed.

Lemma is_nan_false (r : Pose) :
  is_nan r = false <->
  is_finite (p0 r) = true /\ is_finite (p1 r) = true /\ is_finite (p2 r) = true
  /\ is_finite (p3 r) = true /\ is_finite (p4 r) = true /\ is_finite (p5 r) = true.
Proof.
  destruct r as [a0 a1 a2 a3 a4 a5]. unfold is_nan.
  cbn [seq existsb pget p0 p1 p2 p3 p4 p5].
  destruct (is_finite a0), (is_finite a1), (is_finite a2), (is_finite a3),
    (is_finite a4), (is_finite a5); cbn; intuition congruence.
Qed.

Lemma is_finite_pget (r : Pose) (i : nat) :
  is_nan r = false -> i < 6 -> is_finite (pget r i) = true.
Proof.
  intros H Hi. apply is_nan_false in H.
  destruct r as [a0 a1 a2 a3 a4 a5]. cbn [p0 p1 p2 p3 p4 p5] in H.
  destruct i as [|[|[|[|[|[|i]]]]]]; cbn [pget p0 p1 p2 p3 p4 p5]; try tauto; lia.
Qed.

Lemma selected_value (m : Mappings) (newpose : Pose) :
  snd (fst (get_selected_axis_values m newpose))
  = mk_pose (selected_slot m newpose 0) (selected_slot m newpose 1)
            (selected_slot m newpose 2) (selected_slot m newpose 3)
            (selected_slot m newpose 4) (selected_slot m newpose 5).
Proof.
  unfold get_selected_axis_values, selected_slot, for_loop. cbv zeta.
  cbn [fst snd seq fold_left].
  repeat match goal with
         | |- context [if ?c then pset _ _ _ else _] => destruct c
         end; reflexivity.
Qed.

Lemma selected_slot_finite (m : Mappings) (newpose : Pose) (i : nat) :
  is_nan newpose = false -> is_finite (selected_slot m newpose i) = true.
Proof.
  intros H. unfold selected_slot. cbv zeta.
  destruct ((src (opts (m i)) <? 0)%Z || (src (opts (m i)) >=? 6)%Z) eqn:E;
    [reflexivity|].
  apply is_finite_pget; [assumption|].
  apply orb_false_iff in E. destruct E as [E1 E2]. lia.
Qed.

(** X12.  Axis selection cannot introduce a NaN or an infinity: when the
    tracker pose passes the numeric check, so do the raw pose and the
    selected pose that [get_selected_axis_values] returns. *)
Theorem selected_axes_finite (m : Mappings) (newpose : Pose) :
  is_nan newpose = false ->
  is_nan (fst (fst (get_selected_axis_values m newpose))) = false
  /\ is_nan (snd (fst (get_selected_axis_values m newpose))) = false.
Proof.
  intros H. split; [exact H|]. rewrite selected_value.
  apply is_nan_false. cbn [p0 p1 p2 p3 p4 p5].
  repeat split; now apply selected_slot_finite.
Qed.

(** X13.  An axis whose source index is outside 0..5 - the disabled
    sentinel 6 included - selects the value 0, and it is marked disabled
    exactly when the index is 6. *)
Theorem out_of_range_source_selects_zero (m : Mappings) (newpose : Pose) (i : nat) :
  i < 6 ->
  (src (opts (m i)) < 0 \/ 6 <= src (opts (m i)))%Z ->
  pget (snd (fst (get_selected_axis_values m newpose))) i = of_Z 0
  /\ snd (get_selected_axis_values m newpose) i = (src (opts (m i)) =? 6)%Z.
Proof.
  intros Hi Hk. split; [|reflexivity]. rewrite selected_value.
  assert (E : selected_slot m newpose i = of_Z 0).
  { unfold selected_slot. cbv zeta.
    replace ((src (opts (m i)) <? 0)%Z || (src (opts (m i)) >=? 6)%Z) with true;
      [reflexivity|].
    symmetry. apply orb_true_iff. lia. }
  destruct i as [|[|[|[|[|[|i]]]]]]; cbn [pget p0 p1 p2 p3 p4 p5]; try exact E; lia.
Qed.

Lemma zeroing_loop (disabled : vec_bool) (v : Pose) :
  for_loop 0 6 (fun value k => if disabled k then pset value k (of_Z 0) else value) v
  = mk_pose (if disabled 0 then of_Z 0 else p0 v) (if disabled 1 then of_Z 0 else p1 v)
            (if disabled 2 then of_Z 0 else p2 v) (if disabled 3 then of_Z 0 else p3 v)
            (if disabled 4 then of_Z 0 else p4 v) (if disabled 5 then of_Z 0 else p5 v).
Proof.
  unfold for_loop. cbn [seq fold_left]. destruct v.
  destruct (disabled 0), (disabled 1), (disabled 2), (disabled 3), (disabled 4),
    (disabled 5); reflexivity.
Qed.

(** X14.  What [apply_reltrans] returns on each axis: 0 on a disabled axis,
    whatever compensation produced; on the others the rotation slots of its
    argument unchanged and the translation slots as the compensator left
    them. *)
Theorem apply_reltrans_slots (s : main_settings) (p : pipeline) (clk : clock_reads)
    (value : Pose) (disabled : vec_bool) (centerp : bool) (i : nat) :
  i < 6 ->
  let disable : vec_bool := fun k =>
    nth k [ reltrans_disable_tx s; reltrans_disable_ty s; reltrans_disable_tz s;
            reltrans_disable_src_yaw s; reltrans_disable_src_pitch s;
            reltrans_disable_src_roll s ] false in
  let r := if centerp then on_center (rel p) else rel p in
  pget (snd (apply_reltrans s p clk value disabled centerp)) i
  = if disabled i then of_Z 0
    else if 3 <=? i then pget value i
    else pget (snd (apply_pipeline r clk (reltrans_mode s) value disable
                                   (neck_enable s) (neck_z s))) i.
Proof.
  intros Hi disable r. unfold apply_reltrans. cbv zeta.
  fold disable.
  replace (rel (if centerp then set_rel p (on_center (rel p)) else p)) with r
    by (subst r; destruct centerp; reflexivity).
  pose proof (apply_pipeline_keeps_rotation r clk (reltrans_mode s) value disable
                (neck_enable s) (neck_z s)) as F.
  destruct (apply_pipeline r clk (reltrans_mode s) value disable
                           (neck_enable s) (neck_z s)) as [r' v'].
  cbn [snd] in *. rewrite zeroing_loop.
  destruct value as [a0 a1 a2 a3 a4 a5], v' as [c0 c1 c2 c3 c4 c5].
  unfold pose_rotation in F. cbn [p3 p4 p5] in F. injection F as -> -> ->.
  destruct i as [|[|[|[|[|[|i]]]]]]; cbn [pget p0 p1 p2 p3 p4 p5 Nat.leb];
    try reflexivity; lia.
Qed.

(* ================================================================== *)
(** ** The cycle, once more *)

Lemma logic_unfold (m : Mappings) (s : main_settings) (p : pipeline) (inp : cycle_input) :
  logic m s p inp
  = let lb := logic_body m s p inp (center_ordered p)
                         (center_ordered p && tracker_center inp) (hold_ordered p) in
    logic_finish m (fst lb)
      (match snd lb with Some (v, _) => v | None => output_pose (fst lb) end)
      (match snd lb with Some (_, r) => r | None => raw_6dof (fst lb) end).
Proof.
  unfold logic, center_ordered. cbv zeta.
  destruct (logic_body _ _ _ _ _ _ _) as [p1 [[v r] | ]]; reflexivity.
Qed.

Lemma ctl_view_set_center_pose (p : pipeline) (value : Pose) (own : bool) :
  ctl_view (maybe_set_center_pose p value own) = ctl_view p.
Proof.
  unfold maybe_set_center_pose.
  destruct (bits.get _ _); [|reflexivity]. destruct own; reflexivity.
Qed.

Lemma ctl_view_filter (p : pipeline) (value : Pose) :
  ctl_view (fst (maybe_apply_filter p value)) = ctl_view p.
Proof.
  unfold maybe_apply_filter. destruct (pFilter p) as [fs|]; [|reflexivity].
  destruct (filter_filter fs value value). reflexivity.
Qed.

Lemma ctl_view_reltrans (s : main_settings) (p : pipeline) (clk : clock_reads)
    (value : Pose) (disabled : vec_bool) (centerp : bool) :
  ctl_view (fst (apply_reltrans s p clk value disabled centerp)) = ctl_view p.
Proof.
  unfold apply_reltrans.
  destruct (apply_pipeline _ _ _ _ _ _ _) as [r v]. destruct centerp; reflexivity.
Qed.

(** The first numeric check of a cycle only depends on the tracker pose. *)
Lemma first_check (m : Mappings) (data : Pose) :
  is_nan data || is_nan (fst (fst (get_selected_axis_values m data)))
  || is_nan (snd (fst (get_selected_axis_values m data)))
  = is_nan data.
Proof.
  destruct (is_nan data) eqn:E; [reflexivity|].
  pose proof (@selected_slot_finite m data) as F.
  cbn [fst]. change (fst (fst (get_selected_axis_values m data))) with data.
  rewrite E. cbn [orb]. rewrite selected_value. apply is_nan_false.
  cbn [p0 p1 p2 p3 p4 p5]. repeat split; now apply F.
Qed.

(** What the part of [logic] before the labels does to the members in
    [ctl_view]: the tracker pose is stored, and when it passes the numeric
    check, tracking may start. *)
Lemma ctl_view_logic_body (m : Mappings) (s : main_settings) (p : pipeline)
    (inp : cycle_input) (co own hold : bool) :
  ctl_view (fst (logic_body m s p inp co own hold))
  = if is_nan (tracker_data inp)
    then ctl_view (set_newpose p (tracker_data inp))
    else ctl_view (maybe_enable_center_on_tracking_started s
                     (set_newpose p (tracker_data inp))).
Proof.
  unfold logic_body. cbv zeta.
  pose proof (first_check m (tracker_data inp)) as Hc.
  destruct (get_selected_axis_values m (newpose (set_newpose p (tracker_data inp))))
    as [[raw value] disabled] eqn:Eg.
  cbn [newpose set_newpose] in Eg |- *. rewrite Eg in Hc. cbn [fst snd] in Hc.
  rewrite Hc. clear Hc Eg. destruct (is_nan (tracker_data inp)); [reflexivity|].
  match goal with |- context [maybe_apply_filter ?q ?v] =>
    pose proof (ctl_view_filter q v) as Hf;
    destruct (maybe_apply_filter q v) as [pf tmp] end.
  cbn [fst] in Hf. rewrite ctl_view_set_center_pose in Hf.
  match type of Hf with _ = ctl_view (store_tracker_pose ?q ?v) =>
    change (ctl_view (store_tracker_pose q v)) with (ctl_view q) in Hf end.
  destruct (is_nan tmp); [exact Hf|].
  match goal with |- context [apply_reltrans ?a ?q ?c ?v ?d ?e] =>
    pose proof (ctl_view_reltrans a q c v d e) as Hr;
    destruct (apply_reltrans a q c v d e) as [pr vr] end.
  cbn [fst] in Hr. rewrite Hf in Hr.
  match goal with |- context [if is_nan ?x then _ else _] => destruct (is_nan x) end;
    [exact Hr|].
  destruct (negb hold); exact Hr.
Qed.

(** When control reaches [goto ok], the value has passed the last numeric
    check, the raw pose is the tracker pose, and no hold is ordered. *)
Lemma logic_body_ok (m : Mappings) (s : main_settings) (p : pipeline)
    (inp : cycle_input) (co own hold : bool) (value raw : Pose) :
  snd (logic_body m s p inp co own hold) = Some (value, raw) ->
  is_nan value = false /\ raw = tracker_data inp
  /\ is_nan (tracker_data inp) = false /\ hold = false.
Proof.
  unfold logic_body. cbv zeta.
  pose proof (first_check m (tracker_data inp)) as Hc.
  destruct (get_selected_axis_values m (newpose (set_newpose p (tracker_data inp))))
    as [[raw0 value0] disabled] eqn:Eg.
  assert (Eraw : raw0 = tracker_data inp).
  { unfold get_selected_axis_values in Eg. cbn [newpose set_newpose] in Eg.
    now injection Eg as <- _ _. }
  cbn [newpose set_newpose] in Eg |- *. rewrite Eg in Hc. cbn [fst snd] in Hc.
  rewrite Hc. clear Hc Eg. destruct (is_nan (tracker_data inp)) eqn:En; [discriminate|].
  destruct (maybe_apply_filter _ _) as [pf tmp].
  destruct (is_nan tmp); [discriminate|].
  destruct (apply_reltrans _ _ _ _ _ _) as [pr vr].
  match goal with |- context [if is_nan ?x then _ else _] =>
    destruct (is_nan x) eqn:Ev end; [discriminate|].
  destruct hold; [discriminate|]. cbn [negb snd].
  intros H. injection H as <- <-. auto.
Qed.

Lemma set_center_twice (w : bits.t) (v v' : bool) :
  bits.set (bits.set w f_center v) f_center v' = bits.set w f_center v'.
Proof.
  change f_center with (flag_bit 0). apply N.bits_inj. intros k.
  rewrite !testbit_set. now destruct (0 =? k)%N.
Qed.

Lemma maybe_enable_view (s : main_settings) (q : pipeline) :
  let q' := maybe_enable_center_on_tracking_started s q in
  newpose q' = newpose q /\ output_pose q' = output_pose q
  /\ raw_6dof q' = raw_6dof q
  /\ tracking_started q' = tracking_started q || some_slot_nonzero (newpose q)
  /\ (b q' = b q \/ b q' = bits.set (b q) f_center true).
Proof.
  unfold maybe_enable_center_on_tracking_started, some_slot_nonzero. cbv zeta.
  destruct (tracking_started q) eqn:Et; cbn [negb orb].
  - rewrite Et. repeat split; auto.
  - destruct (existsb _ _) eqn:Ee.
    + cbn [tracking_started set_tracking_started andb].
      destruct (center_at_startup s); cbn; repeat split; auto.
    + rewrite Et. cbn [andb]. rewrite Et. repeat split; auto.
Qed.

(** X15.  A cycle consumes the one-shot center command and touches no other
    command flag: whatever happens in it, the flag word afterwards is the
    word before with the Center bit cleared. *)
Theorem cycle_clears_center_flag (m : Mappings) (s : main_settings) (p : pipeline)
    (inp : cycle_input) :
  b (fst (logic m s p inp)) = bits.set (b p) f_center false.
Proof.
  rewrite logic_unfold. cbv zeta. unfold logic_finish. cbv zeta.
  cbn [fst b set_output set_b].
  pose proof (ctl_view_logic_body m s p inp (center_ordered p)
                (center_ordered p && tracker_center inp) (hold_ordered p)) as H.
  destruct (is_nan (tracker_data inp)).
  - unfold ctl_view in H. injection H as Hb _ _ _ _. now rewrite Hb.
  - destruct (maybe_enable_view s (set_newpose p (tracker_data inp)))
      as [_ [_ [_ [_ Hq]]]].
    unfold ctl_view in H. injection H as Hb _ _ _ _. rewrite Hb.
    destruct Hq as [-> | ->]; cbn [b set_newpose];
      [reflexivity | apply set_center_twice].
Qed.

Lemma logic_published (m : Mappings) (s : main_settings) (p : pipeline)
    (inp : cycle_input) :
  let lb := logic_body m s p inp (center_ordered p)
                       (center_ordered p && tracker_center inp) (hold_ordered p) in
  let base := match snd lb with Some (v, _) => v | None => output_pose p end in
  snd (logic m s p inp)
  = apply_zero_pos m (if bits.get (b p) f_zero then pzero else base)
  /\ output_pose (fst (logic m s p inp)) = snd (logic m s p inp)
  /\ raw_6dof (fst (logic m s p inp))
     = match snd lb with Some (_, r) => r | None => raw_6dof p end.
Proof.
  cbv zeta. rewrite logic_unfold. cbv zeta.
  pose proof (frozen_view_logic_body m s p inp (center_ordered p)
                (center_ordered p && tracker_center inp) (hold_ordered p)) as Hv.
  destruct (logic_body _ _ _ _ _ _ _) as [p1 res]. cbn [fst snd] in *.
  unfold frozen_view in Hv. injection Hv as Ho Hr Hz.
  unfold logic_finish. cbv zeta. cbn [fst snd b set_b output_pose raw_6dof set_output].
  rewrite get_zero_set_center, Hz, zero_loop, Ho, Hr.
  destruct res as [[v r] | ]; auto.
Qed.

Lemma logic_body_hold (m : Mappings) (s : main_settings) (p : pipeline)
    (inp : cycle_input) (co own hold : bool) :
  fst (logic_body m s p inp co own hold) = fst (logic_body m s p inp co own false)
  /\ snd (logic_body m s p inp co own hold)
     = if hold then None else snd (logic_body m s p inp co own false).
Proof.
  unfold logic_body. cbv zeta.
  destruct (get_selected_axis_values m _) as [[raw value] disabled].
  destruct (_ || _); [destruct hold; auto|].
  destruct (maybe_apply_filter _ _) as [pf tmp].
  destruct (is_nan tmp); [destruct hold; auto|].
  destruct (apply_reltrans _ _ _ _ _ _) as [pr vr].
  match goal with |- context [if is_nan ?x then _ else _] => destruct (is_nan x) end;
    destruct hold; auto.
Qed.

(** C3.  The hold decision of a cycle is EnabledPersistent XOR EnabledHold,
    and it decides the cycle together with the numeric checks.  When it is
    set - whether or not there is a numeric fault - or when a numeric check
    fails, the cycle ends at [error:]: the value and the raw pose it
    computed are dropped, what it publishes and stores is built from the
    previous cycle's published pose (zeroed under the zero command, zero
    offsets added), and the stored raw pose is the previous cycle's.  When
    it is clear and all checks pass, the cycle publishes the value it
    computed and stores the tracker pose as raw pose.  [computed] is what
    the cycle computes, the hold decision aside. *)
Theorem hold_takes_freeze_path (m : Mappings) (s : main_settings) (p : pipeline)
    (inp : cycle_input) :
  let hold := xorb (bits.get (b p) f_enabled_p) (bits.get (b p) f_enabled_h) in
  let computed :=
    snd (logic_body m s p inp (center_ordered p)
                    (center_ordered p && tracker_center inp) false) in
  let out := logic m s p inp in
  match (if hold then None else computed) with
  | None =>
      snd out = frozen_pose m p
      /\ output_pose (fst out) = frozen_pose m p
      /\ raw_6dof (fst out) = raw_6dof p
  | Some (value, raw) =>
      snd out = apply_zero_pos m (if bits.get (b p) f_zero then pzero else value)
      /\ output_pose (fst out) = snd out
      /\ raw_6dof (fst out) = raw
      /\ raw = tracker_data inp
      /\ is_nan value = false
  end
  /\ (computed = None \/ is_nan (tracker_data inp) = false).
Proof.
  intros hold computed out.
  destruct (logic_published m s p inp) as [H1 [H2 H3]]. cbv zeta in H1, H3.
  destruct (logic_body_hold m s p inp (center_ordered p)
              (center_ordered p && tracker_center inp) (hold_ordered p)) as [_ Hh].
  rewrite Hh in H1, H3. fold computed in H1, H3.
  change (hold_ordered p) with hold in H1, H3. fold out in H1, H2, H3.
  split.
  - destruct (if hold then None else computed) as [[value raw] | ] eqn:E.
    + assert (Ec : computed = Some (value, raw)) by (destruct hold; congruence).
      destruct (logic_body_ok _ _ _ _ _ _ _ Ec) as [Hv [Hraw _]].
      repeat split; assumption.
    + unfold frozen_pose. rewrite H2. repeat split; assumption.
  - destruct computed as [[value raw] | ] eqn:Ec; [right | now left].
    now destruct (logic_body_ok _ _ _ _ _ _ _ Ec) as [_ [_ [Hn _]]].
Qed.

(** X16.  While the zero command is on, every cycle publishes exactly the
    zero offsets, whatever the tracker delivers and whether or not the
    cycle is frozen. *)
Theorem zero_command_publishes_offsets (m : Mappings) (s : main_settings)
    (p : pipeline) (inp : cycle_input) :
  bits.get (b p) f_zero = true ->
  snd (logic m s p inp) = apply_zero_pos m pzero
  /\ output_pose (fst (logic m s p inp)) = apply_zero_pos m pzero.
Proof.
  intros Hz. destruct (logic_published m s p inp) as [H1 [H2 _]].
  rewrite Hz in H1. rewrite H2, H1. auto.
Qed.

Lemma raw_and_mapped_copy (q : pipeline) (mapped raw : Pose) :
  raw_and_mapped_pose q mapped raw = (output_pose q, raw_6dof q).
Proof.
  unfold raw_and_mapped_pose, for_loop. cbn [seq fold_left].
  destruct (output_pose q), (raw_6dof q), mapped, raw. reflexivity.
Qed.

(** X17.  What a reader gets from [raw_and_mapped_pose] after a cycle, for
    any contents of the arrays it passes in: as mapped pose the pose that
    cycle handed to the protocol, and as raw pose the raw pose the cycle
    stored. *)
Theorem readers_see_published (m : Mappings) (s : main_settings) (p : pipeline)
    (inp : cycle_input) (mapped raw : Pose) :
  raw_and_mapped_pose (fst (logic m s p inp)) mapped raw
  = (snd (logic m s p inp), raw_6dof (fst (logic m s p inp))).
Proof.
  rewrite raw_and_mapped_copy.
  destruct (logic_published m s p inp) as [_ [H _]]. now rewrite H.
Qed.

Lemma apply_zero_pos_without_offsets (m : Mappings) (value : Pose) :
  (forall i, i < 6 -> zero (opts (m i)) = of_Z 0) ->
  apply_zero_pos m value = value.
Proof.
  intros Hz. unfold apply_zero_pos, for_loop. cbn [seq fold_left].
  destruct value as [a0 a1 a2 a3 a4 a5]. cbn [pget pset p0 p1 p2 p3 p4 p5].
  rewrite !Hz by lia. now rewrite !add_zero_offset.
Qed.

Lemma cycle_keeps_output_finite (m : Mappings) (s : main_settings) (p : pipeline)
    (inp : cycle_input) :
  (forall i, i < 6 -> zero (opts (m i)) = of_Z 0) ->
  is_nan (output_pose p) = false /\ is_nan (raw_6dof p) = false ->
  is_nan (snd (logic m s p inp)) = false
  /\ is_nan (output_pose (fst (logic m s p inp))) = false
  /\ is_nan (raw_6dof (fst (logic m s p inp))) = false.
Proof.
  intros Hm [Ho Hr]. destruct (logic_published m s p inp) as [H1 [H2 H3]].
  cbv zeta in *.
  assert (Hpub : is_nan (snd (logic m s p inp)) = false).
  { rewrite H1, (@apply_zero_pos_without_offsets m _ Hm).
    destruct (bits.get (b p) f_zero); [reflexivity|].
    destruct (snd (logic_body _ _ _ _ _ _ _)) as [[v r] | ] eqn:E; [|assumption].
    now destruct (logic_body_ok _ _ _ _ _ _ _ E). }
  split; [exact Hpub|]. split; [now rewrite H2|].
  rewrite H3.
  destruct (snd (logic_body _ _ _ _ _ _ _)) as [[v r] | ] eqn:E; [|assumption].
  destruct (logic_body_ok _ _ _ _ _ _ _ E) as [_ [-> [Hn _]]]. exact Hn.
Qed.

(** X18.  With all zero offsets 0 the pipeline never publishes a NaN or an
    infinity: if the stored output and raw poses are numbers when the loop
    starts, they are numbers after any number of cycles, whatever the
    tracker, the filter and the curves deliver - a pose is published only
    after it has passed the last numeric check, or is the pose published
    before. *)
Theorem run_keeps_output_finite (m : Mappings) (s : main_settings)
    (inputs : list cycle_input) (p : pipeline) :
  (forall i, i < 6 -> zero (opts (m i)) = of_Z 0) ->
  is_nan (output_pose p) = false /\ is_nan (raw_6dof p) = false ->
  is_nan (output_pose (cycles m s p inputs)) = false
  /\ is_nan (raw_6dof (cycles m s p inputs)) = false.
Proof.
  intros Hm. revert p. unfold cycles.
  induction inputs as [| inp rest IH]; intros p Hp; [exact Hp|].
  cbn [fold_left]. apply IH.
  destruct (@cycle_keeps_output_finite m s p inp Hm Hp) as [_ [H1 H2]]. auto.
Qed.

Lemma cycle_tracking (m : Mappings) (s : main_settings) (p : pipeline)
    (inp : cycle_input) :
  tracking_started (fst (logic m s p inp))
  = tracking_started p
    || negb (is_nan (tracker_data inp)) && some_slot_nonzero (tracker_data inp).
Proof.
  rewrite logic_unfold. cbv zeta. unfold logic_finish. cbv zeta.
  cbn [fst tracking_started set_output set_b].
  pose proof (ctl_view_logic_body m s p inp (center_ordered p)
                (center_ordered p && tracker_center inp) (hold_ordered p)) as H.
  destruct (is_nan (tracker_data inp)).
  - unfold ctl_view in H. injection H as _ Ht _ _ _. rewrite Ht.
    cbn [tracking_started set_newpose negb andb]. now rewrite orb_false_r.
  - destruct (maybe_enable_view s (set_newpose p (tracker_data inp)))
      as [_ [_ [_ [Hq _]]]].
    unfold ctl_view in H. injection H as _ Ht _ _ _. rewrite Ht, Hq. reflexivity.
Qed.

(** X19.  Tracking, once started, stays started: no sequence of cycles
    clears [tracking_started]. *)
Theorem tracking_stays_started (m : Mappings) (s : main_settings)
    (inputs : list cycle_input) (p : pipeline) :
  tracking_started p = true ->
  tracking_started (cycles m s p inputs) = true.
Proof.
  revert p. unfold cycles.
  induction inputs as [| inp rest IH]; intros p Hp; [exact Hp|].
  cbn [fold_left]. apply IH. rewrite cycle_tracking, Hp. reflexivity.
Qed.

(** X20.  Tracking starts in a cycle exactly when the tracker pose passes
    the numeric check and has a slot that is not zero: a pose of zeros, or
    one with a NaN or an infinity in it, leaves tracking not started. *)
Theorem tracking_starts_on_nonzero_pose (m : Mappings) (s : main_settings)
    (p : pipeline) (inp : cycle_input) :
  tracking_started p = false ->
  tracking_started (fst (logic m s p inp))
  = negb (is_nan (tracker_data inp)) && some_slot_nonzero (tracker_data inp).
Proof. intros H. now rewrite cycle_tracking, H. Qed.

Lemma rel_set_center_pose (p : pipeline) (value : Pose) (own : bool) :
  rel (maybe_set_center_pose p value own) = rel p.
Proof.
  unfold maybe_set_center_pose.
  destruct (bits.get _ _); [|reflexivity]. destruct own; reflexivity.
Qed.

Lemma rel_maybe_enable (s : main_settings) (p : pipeline) :
  rel (maybe_enable_center_on_tracking_started s p) = rel p.
Proof.
  unfold maybe_enable_center_on_tracking_started.
  destruct (negb (tracking_started p)); [|reflexivity].
  destruct (existsb _ _);
    match goal with |- context [if ?c then _ else _] => destruct c end; reflexivity.
Qed.

Lemma rel_filter (p : pipeline) (value : Pose) :
  rel (fst (maybe_apply_filter p value)) = rel p.
Proof.
  unfold maybe_apply_filter. destruct (pFilter p) as [fs|]; [|reflexivity].
  destruct (filter_filter fs value value). reflexivity.
Qed.

Lemma apply_pipeline_stage_le (r : reltrans) (clk : clock_reads)
    (state : reltrans_state) (value : Pose) (disable : vec_bool)
    (neck_enable : bool) (neck_z : Z) :
  RC_stage r <= 4 ->
  RC_stage (fst (apply_pipeline r clk state value disable neck_enable neck_z)) <= 4.
Proof.
  intros H. destruct state.
  - exact H.
  - rewrite apply_pipeline_running by discriminate. cbv zeta. cbn [fst].
    apply interpolate_spec. rewrite RC_stage_at_line_121.
    destruct (_ && _); lia.
  - rewrite apply_pipeline_running by discriminate. cbv zeta. cbn [fst].
    apply interpolate_spec. rewrite RC_stage_at_line_121.
    destruct (_ && _); lia.
Qed.

Lemma rel_reltrans_stage (s : main_settings) (p : pipeline) (clk : clock_reads)
    (value : Pose) (disabled : vec_bool) (centerp : bool) :
  RC_stage (rel p) <= 4 ->
  RC_stage (rel (fst (apply_reltrans s p clk value disabled centerp))) <= 4.
Proof.
  intros H. unfold apply_reltrans. cbv zeta.
  match goal with |- context [apply_pipeline ?r ?c ?st ?v ?d ?ne ?nz] =>
    pose proof (@apply_pipeline_stage_le r c st v d ne nz) as Hs;
    destruct (apply_pipeline r c st v d ne nz) as [r' v'] end.
  cbn [fst rel set_rel] in *. apply Hs. destruct centerp; exact H.
Qed.

Lemma cycle_keeps_stage (m : Mappings) (s : main_settings) (p : pipeline)
    (inp : cycle_input) :
  RC_stage (rel p) <= 4 -> RC_stage (rel (fst (logic m s p inp))) <= 4.
Proof.
  intros H. rewrite logic_unfold. cbv zeta. unfold logic_finish. cbv zeta.
  cbn [fst rel set_output set_b].
  unfold logic_body. cbv zeta.
  destruct (get_selected_axis_values m _) as [[raw value] disabled].
  destruct (_ || _); [exact H|].
  match goal with |- context [maybe_apply_filter ?q ?v] =>
    pose proof (rel_filter q v) as Hf;
    destruct (maybe_apply_filter q v) as [pf tmp] end.
  cbn [fst] in Hf. rewrite rel_set_center_pose in Hf.
  match type of Hf with _ = rel (store_tracker_pose ?q ?v) =>
    change (rel (store_tracker_pose q v)) with (rel q) in Hf end.
  rewrite rel_maybe_enable in Hf. cbn [rel set_newpose] in Hf.
  destruct (is_nan tmp); [cbn [fst]; now rewrite Hf|].
  match goal with |- context [apply_reltrans ?a ?q ?c ?v ?d ?e] =>
    pose proof (@rel_reltrans_stage a q c v d e) as Hr;
    destruct (apply_reltrans a q c v d e) as [pr vr] end.
  cbn [fst] in Hr. rewrite Hf in Hr. specialize (Hr H).
  match goal with |- context [if is_nan ?x then _ else _] => destruct (is_nan x) end;
    [exact Hr|].
  destruct (negb (hold_ordered p)); exact Hr.
Qed.

(** X21.  The stage index never leaves the schedule: if it is at most 4 (the
    last index of [RC_stages]) when the loop starts, it is at most 4 after
    any number of cycles, center commands included. *)
Theorem stage_index_in_bounds (m : Mappings) (s : main_settings)
    (inputs : list cycle_input) (p : pipeline) :
  RC_stage (rel p) <= 4 ->
  RC_stage (rel (cycles m s p inputs)) <= 4.
Proof.
  revert p. unfold cycles.
  induction inputs as [| inp rest IH]; intros p Hp; [exact Hp|].
  cbn [fold_left]. apply IH. now apply cycle_keeps_stage.
Qed.

(** X22.  With all zero offsets 0 and the zero command off, two consecutive
    cycles whose tracker pose fails the numeric check both publish the
    pose published before them, and the stored raw pose stays as it was. *)
Theorem freeze_is_idempotent_without_offsets (m : Mappings) (s : main_settings)
    (p : pipeline) (inp1 inp2 : cycle_input) :
  (forall i, i < 6 -> zero (opts (m i)) = of_Z 0) ->
  bits.get (b p) f_zero = false ->
  is_nan (tracker_data inp1) = true ->
  is_nan (tracker_data inp2) = true ->
  let first := logic m s p inp1 in
  let second := logic m s (fst first) inp2 in
  snd first = output_pose p
  /\ snd second = output_pose p
  /\ output_pose (fst second) = output_pose p
  /\ raw_6dof (fst second) = raw_6dof p.
Proof.
  intros Hm Hz H1 H2. cbv zeta.
  destruct (@error_publishes_frozen m s p inp1) as [A1 [A2 A3]].
  { now apply nan_reaches_error. }
  destruct (@error_publishes_frozen m s (fst (logic m s p inp1)) inp2) as [B1 [B2 B3]].
  { now apply nan_reaches_error. }
  assert (Hz1 : bits.get (b (fst (logic m s p inp1))) f_zero = false).
  { pose proof (frozen_view_logic_body m s p inp1 (center_ordered p)
                  (center_ordered p && tracker_center inp1) (hold_ordered p)) as Hv.
    rewrite logic_unfold. cbv zeta. unfold logic_finish. cbv zeta.
    cbn [fst b set_output set_b]. rewrite get_zero_set_center.
    unfold frozen_view in Hv. injection Hv as _ _ Hb. now rewrite Hb. }
  rewrite (@frozen_pose_without_offsets m p Hm Hz) in A1, A2.
  rewrite (@frozen_pose_without_offsets m (fst (logic m s p inp1)) Hm Hz1), A2
    in B1, B2.
  rewrite A1, B1, B2, B3, A3. auto.
Qed.

Lemma rotate_origin (R : rmat) :
  rmat_finite R = true ->
  rotate R (mk_euler (of_Z 0) (of_Z 0) (of_Z 0)) no_axis
  = mk_euler (of_Z 0) (of_Z 0) (of_Z 0).
Proof.
  destruct R as [[a0 a1 a2] [c0 c1 c2] [d0 d1 d2]].
  unfold rmat_finite, euler_finite. cbn [row0 row1 row2 e0 e1 e2].
  rewrite !andb_true_iff. intros [[[[H0 H1] H2] [[H3 H4] H5]] [[H6 H7] H8]].
  destruct a0, a1, a2, c0, c1, c2, d0, d1, d2; try discriminate.
  unfold rotate, rmat_mulv, dot, no_axis.
  cbn [eget eset e0 e1 e2 TX TY TZ row0 row1 row2 ezero].
  f_equal; fin_ring.
Qed.

(** X23.  Centering by the pipeline puts the origin at the pose of the
    center command: with a center pending and the tracker not claiming the
    centering, the pose that is captured as center comes out of
    [apply_center] with translation (0, 0, 0), for any invert flags,
    provided the one rotation matrix [apply_center] builds for the
    correction holds numbers. *)
Theorem center_zeroes_translation (m : Mappings) (p : pipeline) (a c d : Qc)
    (yaw pitch roll : double) :
  let value := mk_pose (DFin a) (DFin c) (DFin d) yaw pitch roll in
  let centered := maybe_set_center_pose p value false in
  let correction :=
    euler_to_rmat
      (scale_e (d2r * scale_c)%D
         (rmat_to_euler (rmat_mul (rotation (scaled_state centered))
                                  (inv_rot_center (scaled_state centered))))) in
  bits.get (b p) (N.lor f_center f_held_center) = true ->
  rmat_finite correction = true ->
  pose_translation (apply_center m centered value)
  = mk_euler (of_Z 0) (of_Z 0) (of_Z 0).
Proof.
  intros value centered correction Hc HR.
  unfold apply_center. cbv zeta. fold correction.
  assert (Et : t_center (scaled_state centered) = pose_translation value).
  { subst centered. unfold maybe_set_center_pose. rewrite Hc. reflexivity. }
  rewrite Et.
  assert (E : esub (pose_translation value) (pose_translation value)
              = mk_euler (of_Z 0) (of_Z 0) (of_Z 0)).
  { subst value. unfold esub, pose_translation. cbn [e0 e1 e2 p0 p1 p2].
    unfold of_Z, Dbl.sub. cbn [Dbl.add Dbl.neg].
    rewrite !Qcplus_opp_r. reflexivity. }
  rewrite E, rotate_origin by exact HR.
  set (R := scale_e _ _). clearbody R. destruct R as [r0 r1 r2].
  unfold for_loop. cbn [seq fold_left Nat.add eget eset e0 e1 e2].
  assert (N : (- of_Z 0)%D = of_Z 0) by (unfold of_Z; fin_ring).
  destruct (invert (opts (m 0))), (invert (opts (m 1))), (invert (opts (m 2))),
    (invert (opts (m 3))), (invert (opts (m 4))), (invert (opts (m 5)));
    cbn [eget eset e0 e1 e2 pset pget p0 p1 p2 p3 p4 p5 pose_translation];
    rewrite ?N; reflexivity.
Qed.

Lemma Qtrunc_range (x : Q) :
  (0 <= x)%Q -> (x < 11)%Q -> (0 <= Qtrunc x <= 10)%Z.
Proof.
  destruct x as [n d]. unfold Qle, Qlt, Qtrunc. cbn [Qnum Qden]. intros H0 H1.
  split.
  - apply Z.quot_pos; lia.
  - apply Z.lt_succ_r. apply Z.quot_lt_upper_bound; lia.
Qed.

(** X26.  The loop of [run] never sleeps a negative time nor more than
    10 ms, whatever the backlog and the time the cycle took, and the backlog
    it carries on stays a number. *)
Theorem run_timing_sleep_range (backlog elapsed : Qc) :
  let out := run_timing (DFin backlog) (DFin elapsed) in
  (0 <= snd out <= 10)%Z /\ is_finite (fst out) = true.
Proof.
  cbv zeta. unfold run_timing. cbv zeta. cbn [fst snd].
  destruct (fabs (DFin backlog) >? of_Z 3000)%D; unfold of_Z;
    cbn [Dbl.add Dbl.sub Dbl.neg is_finite];
    (split; [|reflexivity]);
    unfold clamp, Dbl.gtb; cbn [Dbl.ltb];
    match goal with |- context [Qcltb (qz 10) ?x] =>
      destruct (Qcltb (qz 10) x) eqn:Hhi;
      [| destruct (Qcltb x (qz 0)) eqn:Hlo ] end;
    unfold float_0_1, of_frac; cbn [Dbl.add to_int]; unfold Qctrunc;
    apply Qtrunc_range;
    try apply Qcltb_ge in Hhi; try apply Qcltb_ge in Hlo;
    unfold Qcle, Qclt, Qcplus, Qcopp, qz, qfrac, Q2Qc in *; cbn [this] in *;
    rewrite ?Qred_correct in *; unfold inject_Z in *; lra.
Qed.

Lemma get_lor (w f g : N) :
  bits.get w (N.lor f g) = bits.get w f || bits.get w g.
Proof.
  unfold bits.get. rewrite N.land_lor_distr_r.
  destruct (N.eqb_spec (N.land w f) 0) as [Ef | Ef];
    destruct (N.eqb_spec (N.land w g) 0) as [Eg | Eg]; cbn [negb orb];
    destruct (N.eqb_spec (N.lor (N.land w f) (N.land w g)) 0) as [E | E];
    try reflexivity; exfalso.
  - apply E. now rewrite Ef, Eg.
  - apply N.lor_eq_0_iff in E. tauto.
  - apply N.lor_eq_0_iff in E. tauto.
  - apply N.lor_eq_0_iff in E. tauto.
Qed.

(** X4.  [get] on a mask that is the OR of two masks, as in
    [b.get(f_center | f_held_center)], is the OR of the two [get]s: a
    center is pending when either the one-shot or the held center flag is
    set. *)
Theorem bits_get_or (w : bits.t) :
  bits.get w (N.lor f_center f_held_center)
  = bits.get w f_center || bits.get w f_held_center.
Proof. apply get_lor. Qed.

Lemma center_pending_after_set (w : bits.t) :
  bits.get (bits.set w f_center true) (N.lor f_center f_held_center) = true.
Proof.
  rewrite get_lor. change f_center with (flag_bit 0).
  now rewrite get_flag_bit, testbit_set.
Qed.

Lemma scaled_filter (p : pipeline) (value : Pose) :
  scaled_state (fst (maybe_apply_filter p value)) = scaled_state p.
Proof.
  unfold maybe_apply_filter. destruct (pFilter p) as [fs|]; [|reflexivity].
  destruct (filter_filter fs value value). reflexivity.
Qed.

Lemma scaled_reltrans (s : main_settings) (p : pipeline) (clk : clock_reads)
    (value : Pose) (disabled : vec_bool) (centerp : bool) :
  scaled_state (fst (apply_reltrans s p clk value disabled centerp)) = scaled_state p.
Proof.
  unfold apply_reltrans.
  destruct (apply_pipeline _ _ _ _ _ _ _) as [r v]. destruct centerp; reflexivity.
Qed.

(** X24.  Centering at startup: in the cycle in which tracking starts (the
    first tracker pose that passes the numeric check and has a slot that
    is not zero), with center-at-startup configured, the clamped selected
    pose of that very cycle is captured as the center - its translation
    and the transpose of its rotation matrix - whatever happens later in
    the cycle. *)
Theorem startup_center_captures_pose (m : Mappings) (s : main_settings)
    (p : pipeline) (inp : cycle_input) :
  tracking_started p = false ->
  center_at_startup s = true ->
  is_nan (tracker_data inp) = false ->
  some_slot_nonzero (tracker_data inp) = true ->
  let value :=
    clamp_value (snd (fst (get_selected_axis_values m (tracker_data inp)))) in
  let R := euler_to_rmat (scale_e (scale_inv_c * d2r)%D (pose_rotation value)) in
  scaled_state (fst (logic m s p inp)) = mk_scaled R (rmat_t R) (pose_translation value).
Proof.
  intros Ht Hs Hn Hz value R.
  rewrite logic_unfold. cbv zeta. unfold logic_finish. cbv zeta.
  cbn [fst scaled_state set_output set_b].
  unfold center_ordered. rewrite Ht, andb_false_r. cbn [andb].
  unfold logic_body. cbv zeta.
  pose proof (first_check m (tracker_data inp)) as Hc.
  destruct (get_selected_axis_values m (newpose (set_newpose p (tracker_data inp))))
    as [[raw0 value0] disabled] eqn:Eg.
  cbn [newpose set_newpose] in Eg |- *.
  assert (Ev : value = clamp_value value0) by (subst value; now rewrite Eg).
  rewrite Eg in Hc. cbn [fst snd] in Hc. rewrite Hc, Hn. clear Hc Eg.
  assert (Ep : scaled_state
                 (maybe_set_center_pose
                    (store_tracker_pose
                       (maybe_enable_center_on_tracking_started s
                          (set_newpose p (tracker_data inp)))
                       (clamp_value value0))
                    (clamp_value value0) false)
               = mk_scaled R (rmat_t R) (pose_translation value)).
  { unfold maybe_enable_center_on_tracking_started.
    cbn [tracking_started set_newpose newpose]. rewrite Ht. cbn [negb].
    fold (some_slot_nonzero (tracker_data inp)). rewrite Hz.
    cbn [tracking_started set_tracking_started andb]. rewrite Hs.
    unfold maybe_set_center_pose.
    cbn [b set_b store_tracker_pose set_scaled_state set_tracking_started set_newpose].
    rewrite center_pending_after_set. subst R. rewrite Ev. reflexivity. }
  match goal with |- context [maybe_apply_filter ?q ?v] =>
    pose proof (scaled_filter q v) as Hf;
    destruct (maybe_apply_filter q v) as [pf tmp] end.
  cbn [fst] in Hf. rewrite Ep in Hf.
  destruct (is_nan tmp); [exact Hf|].
  match goal with |- context [apply_reltrans ?a ?q ?c ?v ?d ?e] =>
    pose proof (scaled_reltrans a q c v d e) as Hr;
    destruct (apply_reltrans a q c v d e) as [pr vr] end.
  cbn [fst] in Hr. rewrite Hf in Hr.
  match goal with |- context [if is_nan ?x then _ else _] => destruct (is_nan x) end;
    [exact Hr|].
  destruct (negb (hold_ordered p)); exact Hr.
Qed.

(** X25.  The raw pose a cycle stores is never a partly processed pose: it
    is either the pose the tracker delivered in this cycle or the raw pose
    stored before.  *)
Theorem raw_pose_is_fresh_or_kept (m : Mappings) (s : main_settings) (p : pipeline)
    (inp : cycle_input) :
  raw_6dof (fst (logic m s p inp)) = tracker_data inp
  \/ raw_6dof (fst (logic m s p inp)) = raw_6dof p.
Proof.
  destruct (logic_published m s p inp) as [_ [_ H]]. cbv zeta in H.
  destruct (snd (logic_body _ _ _ _ _ _ _)) as [[v r] | ] eqn:E.
  - left. rewrite H. now destruct (logic_body_ok _ _ _ _ _ _ _ E) as [_ [-> _]].
  - right. exact H.
Qed.
End Collaborators.

(** Closes a goal [u = v] between evaluated poses, vectors or doubles. *)
Ltac evaluated :=
  first [ apply pose_same_eq | apply euler_same_eq | apply same_eq ];
  vm_compute; reflexivity.

(* ================================================================== *)
(** ** Evaluated instances *)

(** C5, counterexample.  A rotation of 180 and the same rotation one whole
    turn back, -180, clamp to different values (180 and -180). *)
Lemma clamp_value_not_periodic :
  pget (clamp_value (pset pzero Yaw (of_Z 180))) Yaw
  <> pget (clamp_value (pset pzero Yaw (of_Z 180 + of_Z 360 * of_Z (-1))%D)) Yaw.
Proof. apply same_neq. vm_compute. reflexivity. Qed.

(** C5, instance of the amended statement: 10 and 370 degrees of yaw. *)
Lemma clamp_value_periodic_same_sign_witness :
  3 <= Yaw < 6
  /\ same_sign (qz 10) (qz 10 + qz 360 * qz 1)%Qc
  /\ pget (clamp_value (pset pzero Yaw (DFin (qz 10) + of_Z 360 * of_Z 1)%D)) Yaw
     = pget (clamp_value (pset pzero Yaw (DFin (qz 10)))) Yaw.
Proof.
  assert (Hi : 3 <= Yaw < 6) by (unfold Yaw; lia).
  assert (Hs : same_sign (qz 10) (qz 10 + qz 360 * qz 1)%Qc)
    by (left; split; apply Qcltb_ge; reflexivity).
  split; [exact Hi|]. split; [exact Hs|].
  exact (@clamp_value_periodic_same_sign pzero Yaw (qz 10) 1 Hi Hs).
Defined.

(** C7, instance: mode AlwaysOn, a transition under way at stage 0, two
    seconds on the phase timer and one second since the last cycle. *)
Lemma staged_low_pass_witness :
  reltrans_enabled <> reltrans_disabled
  /\ RC_stage moving_reltrans <= 4
  /\ RC_stage (fst (apply_pipeline (fun _ => rmat_eye) (of_frac 1 57) moving_reltrans
                      moving_clock reltrans_enabled sample_pose no_axis false 0)) <= 4.
Proof.
  assert (H1 : reltrans_enabled <> reltrans_disabled) by discriminate.
  assert (H2 : RC_stage moving_reltrans <= 4) by (cbn; lia).
  split; [exact H1|]. split; [exact H2|].
  exact (proj1 (@staged_low_pass (fun _ => rmat_eye) (of_frac 1 57) moving_reltrans
                  moving_clock reltrans_enabled sample_pose no_axis false 0 H1 H2)).
Defined.

(** The same cycle evaluated; every operation that reaches these values
    is exact in binary floating point as well.  The stage moves to 1
    (RC = 1) and the phase
    timer restarts, alpha is 1/2, the filtered TX moves from 4 to 2.5 on its
    way to the target 1, and the transition stays active. *)
Lemma low_pass_cycle_evaluated :
  let out := apply_pipeline (fun _ => rmat_eye) (of_frac 1 57) moving_reltrans
                            moving_clock reltrans_enabled sample_pose no_axis false 0 in
  RC_stage (fst out) = 1
  /\ cur (fst out) = true
  /\ interp_timer (fst out) = mk_timer (of_Z 1)
  /\ interp_phase_timer (fst out) = mk_timer (of_Z 2)
  /\ interp_pos (fst out) = mk_euler (of_frac 5 2) (of_Z 2) (of_Z 3)
  /\ pose_translation (snd out) = mk_euler (of_frac 5 2) (of_Z 2) (of_Z 3).
Proof.
  cbv zeta. repeat split; try (vm_compute; reflexivity); evaluated.
Qed.

(** C3, instances.  With EnabledPersistent set and EnabledHold clear, a
    good tracker pose is dropped: the published pose is the previous one and
    the raw pose stays (0, ..., 0).  With both flags set, the same pose from
    the same state goes through: the raw pose stored is the tracker pose and
    the published pose is the computed one. *)
Lemma hold_takes_freeze_path_witness :
  let cycle flags :=
    logic sample_euler_to_rmat sample_rmat_to_euler (of_frac 1 57) (of_Z 57)
          (of_Z 8) (of_frac 1 8) sample_filter_center sample_filter
          (sample_mappings 0) sample_settings (sample_pipeline unit flags)
          sample_input in
  (snd (cycle f_enabled_p) = last_good
   /\ raw_6dof (fst (cycle f_enabled_p)) = pzero)
  /\ (raw_6dof (fst (cycle bits.init)) = sample_pose
      /\ output_pose (fst (cycle bits.init)) = snd (cycle bits.init)
      /\ snd (cycle bits.init) <> last_good).
Proof.
  intros cycle. split.
  - pose proof (@hold_takes_freeze_path sample_euler_to_rmat sample_rmat_to_euler
                  (of_frac 1 57) (of_Z 57) (of_Z 8) (of_frac 1 8) unit
                  sample_filter_center sample_filter (sample_mappings 0)
                  sample_settings (sample_pipeline unit f_enabled_p) sample_input)
      as [H _].
    cbv zeta in H.
    change (xorb (bits.get (b (sample_pipeline unit f_enabled_p)) f_enabled_p)
                 (bits.get (b (sample_pipeline unit f_enabled_p)) f_enabled_h))
      with true in H.
    cbv iota in H. destruct H as [H1 [_ H3]]. split.
    + subst cycle. cbv beta. rewrite H1. apply pose_same_eq. vm_compute. reflexivity.
    + subst cycle. cbv beta. rewrite H3. reflexivity.
  - pose proof (@hold_takes_freeze_path sample_euler_to_rmat sample_rmat_to_euler
                  (of_frac 1 57) (of_Z 57) (of_Z 8) (of_frac 1 8) unit
                  sample_filter_center sample_filter (sample_mappings 0)
                  sample_settings (sample_pipeline unit bits.init) sample_input)
      as [H _].
    cbv zeta in H.
    change (xorb (bits.get (b (sample_pipeline unit bits.init)) f_enabled_p)
                 (bits.get (b (sample_pipeline unit bits.init)) f_enabled_h))
      with false in H.
    cbv iota in H.
    destruct (snd (logic_body _ _ _ _ _ _ _ _ _ _ _ _ _ _ _)) as [[value raw] | ] eqn:E.
    + destruct H as [H1 [H2 [H3 [H4 _]]]]. subst cycle. cbv beta.
      split; [rewrite H3; exact H4|]. split; [exact H2|].
      intros Hbad. apply (f_equal (fun v => Dbl.same (p3 v) (of_Z 10))) in Hbad.
      vm_compute in Hbad. discriminate Hbad.
    + exfalso. vm_compute in E. discriminate E.
Defined.

(** C9, counterexample.  Mode ZoneTriggered, pitch 25 and yaw 10 (outside
    the zone), neck enabled with [neck_z] = 10: the mode is not AlwaysOn and
    the pose is not zoned, yet no neck offset is added - the translation
    comes out as it went in - although the offset for the rotation at hand
    is not zero. *)
Lemma neck_skipped_outside_zone :
  let out := apply_pipeline (fun _ => quarter_turn) (of_frac 1 57) idle_reltrans
                            (clock_at (of_Z 0)) reltrans_non_center sample_pose
                            no_axis true 10 in
  zone_test reltrans_non_center sample_pose = false
  /\ in_zone (fst out) = false
  /\ pose_translation (snd out) = pose_translation sample_pose
  /\ apply_neck quarter_turn (-10) false = mk_euler (of_Z 10) (of_Z 0) (of_Z 10)
  /\ eadd (pose_translation sample_pose) (apply_neck quarter_turn (-10) false)
     <> pose_translation (snd out).
Proof.
  cbv zeta. repeat split; try (vm_compute; reflexivity); try evaluated.
  intros E. apply (f_equal (fun v => Dbl.same (e0 v) (of_Z 1))) in E.
  vm_compute in E. discriminate E.
Qed.

(* ================================================================== *)
(** ** Instances of the further properties *)

(** X8, instance: the settled compensator and a pose of pitch 25, yaw 10. *)
Lemma settled_outside_zone_witness :
  zone_test reltrans_non_center sample_pose = false
  /\ cur idle_reltrans = false
  /\ in_zone idle_reltrans = false
  /\ snd (apply_pipeline sample_euler_to_rmat (of_frac 1 57) idle_reltrans
            (clock_at (of_Z 0)) reltrans_non_center sample_pose no_axis true 10)
     = sample_pose.
Proof.
  assert (H1 : zone_test reltrans_non_center sample_pose = false) by reflexivity.
  assert (H2 : cur idle_reltrans = false) by reflexivity.
  assert (H3 : in_zone idle_reltrans = false) by reflexivity.
  repeat (split; [assumption|]).
  exact (proj1 (@settled_outside_zone sample_euler_to_rmat (of_frac 1 57)
                  idle_reltrans (clock_at (of_Z 0)) sample_pose no_axis true 10
                  H1 H2 H3)).
Defined.

(** X10, instance: rotations 10, 25 and 0. *)
Lemma clamp_value_in_range_witness :
  ((qz (-180) <= qz 10)%Qc /\ (qz 10 <= qz 180)%Qc)
  /\ ((qz (-180) <= qz 25)%Qc /\ (qz 25 <= qz 180)%Qc)
  /\ ((qz (-180) <= qz 0)%Qc /\ (qz 0 <= qz 180)%Qc)
  /\ clamp_value sample_pose = sample_pose.
Proof.
  assert (H1 : (qz (-180) <= qz 10)%Qc /\ (qz 10 <= qz 180)%Qc)
    by (split; apply Qcltb_ge; reflexivity).
  assert (H2 : (qz (-180) <= qz 25)%Qc /\ (qz 25 <= qz 180)%Qc)
    by (split; apply Qcltb_ge; reflexivity).
  assert (H3 : (qz (-180) <= qz 0)%Qc /\ (qz 0 <= qz 180)%Qc)
    by (split; apply Qcltb_ge; reflexivity).
  repeat (split; [assumption|]).
  exact (@clamp_value_in_range (of_Z 1) (of_Z 2) (of_Z 3) (qz 10) (qz 25) (qz 0)
           H1 H2 H3).
Defined.

(** X12, instance: identity mappings and a pose of numbers. *)
Lemma selected_axes_finite_witness :
  is_nan sample_pose = false
  /\ is_nan (snd (fst (get_selected_axis_values (sample_mappings 0) sample_pose)))
     = false.
Proof.
  assert (H : is_nan sample_pose = false) by reflexivity.
  split; [exact H|].
  exact (proj2 (@selected_axes_finite (sample_mappings 0) sample_pose H)).
Defined.

(** X13, instance: the TX axis with the disabled sentinel as source. *)
Lemma out_of_range_source_selects_zero_witness :
  0 < 6
  /\ ((src (opts (disabled_tx_mappings 0%nat)) < 0)%Z
      \/ (6 <= src (opts (disabled_tx_mappings 0%nat)))%Z)
  /\ pget (snd (fst (get_selected_axis_values disabled_tx_mappings sample_pose))) 0
     = of_Z 0
  /\ snd (get_selected_axis_values disabled_tx_mappings sample_pose) 0 = true.
Proof.
  assert (H1 : 0 < 6) by lia.
  assert (H2 : (src (opts (disabled_tx_mappings 0%nat)) < 0)%Z
               \/ (6 <= src (opts (disabled_tx_mappings 0%nat)))%Z)
    by (right; cbn; lia).
  split; [exact H1|]. split; [exact H2|].
  exact (@out_of_range_source_selects_zero disabled_tx_mappings sample_pose 0 H1 H2).
Defined.

(** X14, instance: the TX axis disabled, compensator off. *)
Lemma apply_reltrans_slots_witness :
  0 < 6
  /\ pget (snd (apply_reltrans sample_euler_to_rmat (of_frac 1 57) sample_settings
                  (sample_pipeline unit bits.init) (clock_at (of_Z 0)) sample_pose
                  (fun k => k =? 0) false)) 0
     = of_Z 0.
Proof.
  assert (H : 0 < 6) by lia.
  split; [exact H|].
  exact (@apply_reltrans_slots sample_euler_to_rmat (of_frac 1 57) unit sample_settings
           (sample_pipeline unit bits.init) (clock_at (of_Z 0)) sample_pose
           (fun k => k =? 0) false 0 H).
Defined.

(** X16, instance: the zero command on, a zero offset of 1 on TX. *)
Lemma zero_command_publishes_offsets_witness :
  let p := sample_pipeline unit (N.lor bits.init f_zero) in
  bits.get (b p) f_zero = true
  /\ snd (logic sample_euler_to_rmat sample_rmat_to_euler (of_frac 1 57) (of_Z 57)
            (of_Z 8) (of_frac 1 8) sample_filter_center sample_filter
            (sample_mappings 1) sample_settings p sample_input)
     = apply_zero_pos (sample_mappings 1) pzero.
Proof.
  intros p.
  assert (H : bits.get (b p) f_zero = true) by reflexivity.
  split; [exact H|].
  exact (proj1 (@zero_command_publishes_offsets sample_euler_to_rmat
                  sample_rmat_to_euler (of_frac 1 57) (of_Z 57) (of_Z 8)
                  (of_frac 1 8) unit sample_filter_center sample_filter
                  (sample_mappings 1) sample_settings p sample_input H)).
Defined.

Lemma sample_offsets_zero (i : nat) :
  i < 6 -> zero (opts (sample_mappings 0 i)) = of_Z 0.
Proof. intros _. unfold sample_mappings. cbn. now destruct (i =? 0). Qed.

(** X18, instance: no zero offsets, a faulty cycle followed by a good one. *)
Lemma run_keeps_output_finite_witness :
  let p := sample_pipeline unit bits.init in
  (forall i, i < 6 -> zero (opts (sample_mappings 0 i)) = of_Z 0)
  /\ (is_nan (output_pose p) = false /\ is_nan (raw_6dof p) = false)
  /\ is_nan (output_pose
               (cycles sample_euler_to_rmat sample_rmat_to_euler (of_frac 1 57)
                  (of_Z 57) (of_Z 8) (of_frac 1 8) sample_filter_center
                  sample_filter (sample_mappings 0) sample_settings p
                  [nan_input; sample_input])) = false.
Proof.
  intros p.
  assert (H2 : is_nan (output_pose p) = false /\ is_nan (raw_6dof p) = false)
    by (split; reflexivity).
  split; [exact sample_offsets_zero|]. split; [exact H2|].
  exact (proj1 (@run_keeps_output_finite sample_euler_to_rmat sample_rmat_to_euler
                  (of_frac 1 57) (of_Z 57) (of_Z 8) (of_frac 1 8) unit
                  sample_filter_center sample_filter (sample_mappings 0)
                  sample_settings [nan_input; sample_input] p
                  sample_offsets_zero H2)).
Defined.

(** X19, instance: a running pipeline fed a faulty and a good pose. *)
Lemma tracking_stays_started_witness :
  let p := sample_pipeline unit bits.init in
  tracking_started p = true
  /\ tracking_started
       (cycles sample_euler_to_rmat sample_rmat_to_euler (of_frac 1 57)
          (of_Z 57) (of_Z 8) (of_frac 1 8) sample_filter_center sample_filter
          (sample_mappings 1) sample_settings p [nan_input; sample_input]) = true.
Proof.
  intros p.
  assert (H : tracking_started p = true) by reflexivity.
  split; [exact H|].
  exact (@tracking_stays_started sample_euler_to_rmat sample_rmat_to_euler
           (of_frac 1 57) (of_Z 57) (of_Z 8) (of_frac 1 8) unit
           sample_filter_center sample_filter (sample_mappings 1)
           sample_settings [nan_input; sample_input] p H).
Defined.

(** X20, instance: the first good pose with a slot that is not zero. *)
Lemma tracking_starts_on_nonzero_pose_witness :
  tracking_started (fresh_pipeline unit) = false
  /\ tracking_started
       (fst (logic sample_euler_to_rmat sample_rmat_to_euler (of_frac 1 57)
               (of_Z 57) (of_Z 8) (of_frac 1 8) sample_filter_center sample_filter
               (sample_mappings 0) sample_settings (fresh_pipeline unit)
               sample_input))
     = negb (is_nan (tracker_data sample_input))
       && some_slot_nonzero (tracker_data sample_input).
Proof.
  assert (H : tracking_started (fresh_pipeline unit) = false) by reflexivity.
  split; [exact H|].
  exact (@tracking_starts_on_nonzero_pose sample_euler_to_rmat sample_rmat_to_euler
           (of_frac 1 57) (of_Z 57) (of_Z 8) (of_frac 1 8) unit
           sample_filter_center sample_filter (sample_mappings 0)
           sample_settings (fresh_pipeline unit) sample_input H).
Defined.

(** X21, instance: two cycles from stage 0. *)
Lemma stage_index_in_bounds_witness :
  let p := sample_pipeline unit bits.init in
  RC_stage (rel p) <= 4
  /\ RC_stage
       (rel (cycles sample_euler_to_rmat sample_rmat_to_euler (of_frac 1 57)
               (of_Z 57) (of_Z 8) (of_frac 1 8) sample_filter_center sample_filter
               (sample_mappings 1) sample_settings p [nan_input; sample_input]))
     <= 4.
Proof.
  intros p.
  assert (H : RC_stage (rel p) <= 4) by (cbn; lia).
  split; [exact H|].
  exact (@stage_index_in_bounds sample_euler_to_rmat sample_rmat_to_euler
           (of_frac 1 57) (of_Z 57) (of_Z 8) (of_frac 1 8) unit
           sample_filter_center sample_filter (sample_mappings 1)
           sample_settings [nan_input; sample_input] p H).
Defined.

(** X22, instance: no zero offsets, two faulty cycles in a row. *)
Lemma freeze_is_idempotent_without_offsets_witness :
  let p := sample_pipeline unit bits.init in
  let first := logic sample_euler_to_rmat sample_rmat_to_euler (of_frac 1 57)
                     (of_Z 57) (of_Z 8) (of_frac 1 8) sample_filter_center
                     sample_filter (sample_mappings 0) sample_settings p nan_input in
  let second := logic sample_euler_to_rmat sample_rmat_to_euler (of_frac 1 57)
                      (of_Z 57) (of_Z 8) (of_frac 1 8) sample_filter_center
                      sample_filter (sample_mappings 0) sample_settings (fst first)
                      nan_input in
  (forall i, i < 6 -> zero (opts (sample_mappings 0 i)) = of_Z 0)
  /\ bits.get (b p) f_zero = false
  /\ is_nan (tracker_data nan_input) = true
  /\ snd first = last_good
  /\ snd second = last_good.
Proof.
  intros p first second.
  assert (H2 : bits.get (b p) f_zero = false) by reflexivity.
  assert (H3 : is_nan (tracker_data nan_input) = true) by reflexivity.
  split; [exact sample_offsets_zero|]. split; [exact H2|]. split; [exact H3|].
  pose proof (@freeze_is_idempotent_without_offsets sample_euler_to_rmat
                sample_rmat_to_euler (of_frac 1 57) (of_Z 57) (of_Z 8)
                (of_frac 1 8) unit sample_filter_center sample_filter
                (sample_mappings 0) sample_settings p nan_input nan_input
                sample_offsets_zero H2 H3 H3) as H.
  cbv zeta in H. destruct H as [A [B _]]. split; [exact A | exact B].
Defined.

(** X23, instance: a center command pending, no rotation. *)
Lemma center_zeroes_translation_witness :
  let p := sample_pipeline unit (N.lor bits.init f_center) in
  let centered := maybe_set_center_pose sample_filter_center p sample_pose false in
  bits.get (b p) (N.lor f_center f_held_center) = true
  /\ rmat_finite
       (sample_euler_to_rmat
          (scale_e (of_frac 1 57 * of_Z 8)%D
             (sample_rmat_to_euler
                (rmat_mul (rotation (scaled_state centered))
                          (inv_rot_center (scaled_state centered)))))) = true
  /\ pose_translation
       (apply_center sample_euler_to_rmat sample_rmat_to_euler (of_frac 1 57)
          (of_Z 57) (of_Z 8) (sample_mappings 0) centered sample_pose)
     = mk_euler (of_Z 0) (of_Z 0) (of_Z 0).
Proof.
  intros p centered.
  assert (H1 : bits.get (b p) (N.lor f_center f_held_center) = true) by reflexivity.
  assert (H2 : rmat_finite
                 (sample_euler_to_rmat
                    (scale_e (of_frac 1 57 * of_Z 8)%D
                       (sample_rmat_to_euler
                          (rmat_mul (rotation (scaled_state centered))
                                    (inv_rot_center (scaled_state centered))))))
               = true) by reflexivity.
  split; [exact H1|]. split; [exact H2|].
  exact (@center_zeroes_translation sample_euler_to_rmat sample_rmat_to_euler
           (of_frac 1 57) (of_Z 57) (of_Z 8) unit sample_filter_center
           (sample_mappings 0) p (qz 1) (qz 2) (qz 3) (of_Z 10) (of_Z 25) (of_Z 0)
           H1 H2).
Defined.

(** X24, instance: center at startup, first pose (1, 2, 3, 10, 25, 0). *)
Lemma startup_center_captures_pose_witness :
  tracking_started (fresh_pipeline unit) = false
  /\ center_at_startup startup_settings = true
  /\ is_nan (tracker_data sample_input) = false
  /\ some_slot_nonzero (tracker_data sample_input) = true
  /\ t_center
       (scaled_state
          (fst (logic sample_euler_to_rmat sample_rmat_to_euler (of_frac 1 57)
                  (of_Z 57) (of_Z 8) (of_frac 1 8) sample_filter_center
                  sample_filter (sample_mappings 0) startup_settings
                  (fresh_pipeline unit) sample_input)))
     = pose_translation
         (clamp_value
            (snd (fst (get_selected_axis_values (sample_mappings 0)
                         (tracker_data sample_input))))).
Proof.
  assert (H1 : tracking_started (fresh_pipeline unit) = false) by reflexivity.
  assert (H2 : center_at_startup startup_settings = true) by reflexivity.
  assert (H3 : is_nan (tracker_data sample_input) = false) by reflexivity.
  assert (H4 : some_slot_nonzero (tracker_data sample_input) = true) by reflexivity.
  repeat (split; [assumption|]).
  rewrite (@startup_center_captures_pose sample_euler_to_rmat sample_rmat_to_euler
             (of_frac 1 57) (of_Z 57) (of_Z 8) (of_frac 1 8) unit
             sample_filter_center sample_filter (sample_mappings 0)
             startup_settings (fresh_pipeline unit) sample_input H1 H2 H3 H4).
  reflexivity.
Defined.
